(** * awsconfigfile: merging generated AWS SSO profiles into ~/.aws/config

    A shallow embedding of [src/awscfg.go] (the profile record, [ToIni],
    [Merge]) and of the generator that follows it in the same file
    ([Generator.Generate] with its two validation regular expressions),
    together with the properties of the merge engine.

    Go strings are byte sequences and are modelled as [string] (a list of
    8-bit [ascii]); Go's [<] on strings is the byte-wise lexicographic
    order, which is [String.ltb]. *)

From Stdlib Require Import List String Ascii Bool Arith Lia.
From Stdlib Require Import Permutation Sorted.
From Stdlib Require OrderedTypeEx.
Import ListNotations.

Open Scope string_scope.
Open Scope list_scope.

Infix "+++" := String.append (right associativity, at level 60).

(** Go's [error] values; only their identity matters here. *)
Definition error := string.

Inductive result (A : Type) : Type :=
| Ok (a : A)
| Err (e : error).
Arguments Ok {A} a.
Arguments Err {A} e.

(** ** The profile record *)

Record SSOProfile := {
  SSOStartURL : string;
  SSORegion : string;
  Region : string;
  AccountID : string;
  AccountName : string;
  RoleName : string;
  CommonFateURL : string;
  GeneratedFrom : string
}.

(** [ssoProfile.AccountName = v] on the loop's copy of a profile. *)
Definition withAccountName (v : string) (p : SSOProfile) : SSOProfile :=
  {| SSOStartURL := SSOStartURL p;
     SSORegion := SSORegion p;
     Region := Region p;
     AccountID := AccountID p;
     AccountName := v;
     RoleName := RoleName p;
     CommonFateURL := CommonFateURL p;
     GeneratedFrom := GeneratedFrom p |}.

(** [strings.ReplaceAll(s, " ", "-")]: the pattern is one byte long, so the
    replacement is a byte-wise map. *)
Fixpoint replaceSpaces (s : string) : string :=
  match s with
  | EmptyString => EmptyString
  | String c s' =>
      String (if Ascii.eqb c " "%char then "-"%char else c) (replaceSpaces s')
  end.

Definition normalizeAccountName (accountName : string) : string :=
  replaceSpaces accountName.

(** ** The two ini-tagged structs *)

Module regularProfile.
Record t := {
  SSOStartURL : string;
  SSORegion : string;
  SSOAccountID : string;
  CommonFateGeneratedFrom : string;
  SSORoleName : string;
  Region : string
}.
End regularProfile.

Module credentialProcessProfile.
Record t := {
  SSOStartURL : string;
  SSORegion : string;
  SSOAccountID : string;
  SSORoleName : string;
  CommonFateGeneratedFrom : string;
  CredentialProcess : string;
  Region : string
}.
End credentialProcessProfile.

(** [ToIni] returns [any]: a pointer to one of the two structs. *)
Inductive IniEntry :=
| Regular (r : regularProfile.t)
| CredentialProcess (c : credentialProcessProfile.t).

Definition ToIni (p : SSOProfile) (profileName : string)
    (noCredentialProcess : bool) : IniEntry :=
  if noCredentialProcess then
    Regular
      {| regularProfile.SSOStartURL := SSOStartURL p;
         regularProfile.SSORegion := SSORegion p;
         regularProfile.SSOAccountID := AccountID p;
         regularProfile.SSORoleName := RoleName p;
         regularProfile.CommonFateGeneratedFrom := GeneratedFrom p;
         regularProfile.Region := Region p |}
  else
    let credProcess := "granted credential-process --profile " +++ profileName in
    let credProcess :=
      if String.eqb (CommonFateURL p) "" then credProcess
      else credProcess +++ " --url " +++ CommonFateURL p in
    CredentialProcess
      {| credentialProcessProfile.SSOStartURL := SSOStartURL p;
         credentialProcessProfile.SSORegion := SSORegion p;
         credentialProcessProfile.SSOAccountID := AccountID p;
         credentialProcessProfile.SSORoleName := RoleName p;
         credentialProcessProfile.CredentialProcess := credProcess;
         credentialProcessProfile.CommonFateGeneratedFrom := GeneratedFrom p;
         credentialProcessProfile.Region := Region p |}.

(** One struct field as the ini reflection sees it: the key of its [ini]
    tag, whether the tag carries [omitempty], and the field's value. *)
Record iniField := {
  tagKey : string;
  omitEmpty : bool;
  fieldValue : string
}.

Definition field (k : string) (v : string) : iniField :=
  {| tagKey := k; omitEmpty := false; fieldValue := v |}.

Definition fieldOmitEmpty (k : string) (v : string) : iniField :=
  {| tagKey := k; omitEmpty := true; fieldValue := v |}.

(** The fields of each struct in declaration order, with their tags. *)
Definition iniFields (e : IniEntry) : list iniField :=
  match e with
  | CredentialProcess c =>
      [ field "granted_sso_start_url" (credentialProcessProfile.SSOStartURL c);
        field "granted_sso_region" (credentialProcessProfile.SSORegion c);
        field "granted_sso_account_id" (credentialProcessProfile.SSOAccountID c);
        field "granted_sso_role_name" (credentialProcessProfile.SSORoleName c);
        field "common_fate_generated_from"
          (credentialProcessProfile.CommonFateGeneratedFrom c);
        field "credential_process" (credentialProcessProfile.CredentialProcess c);
        fieldOmitEmpty "region" (credentialProcessProfile.Region c) ]
  | Regular r =>
      [ field "sso_start_url" (regularProfile.SSOStartURL r);
        field "sso_region" (regularProfile.SSORegion r);
        field "sso_account_id" (regularProfile.SSOAccountID r);
        field "common_fate_generated_from" (regularProfile.CommonFateGeneratedFrom r);
        field "sso_role_name" (regularProfile.SSORoleName r);
        fieldOmitEmpty "region" (regularProfile.Region r) ]
  end.

(** ** The configuration document *)

(** Modelled from the spec: the document type [*ini.File] of gopkg.in/ini.v1
    and the operations [Merge] calls on it ([Sections], [HasKey],
    [Key(..).String], [Name], [DeleteSection], [NewSection], [ReflectFrom]).
    The library is not part of the repository.  The spec describes the
    document as an ordered collection of named sections, each section a
    mapping from key to string value whose insertion order is preserved;
    a section is addressed by its name.  A section answers [HasKey] and
    [Key] from its own keys only.  Two documents that are equal here are
    written to the same bytes. *)
Module ini.

Record Section_ := {
  Name : string;
  Keys : list (string * string)
}.

Definition File := list Section_.

Definition Sections (f : File) : list Section_ := f.

Definition names (f : File) : list string := map Name f.

Fixpoint lookup (k : string) (kvs : list (string * string)) : option string :=
  match kvs with
  | [] => None
  | (k', v) :: rest => if String.eqb k' k then Some v else lookup k rest
  end.

Definition HasKey (s : Section_) (k : string) : bool :=
  match lookup k (Keys s) with Some _ => true | None => false end.

(** [sec.Key(k).String()]; [Merge] asks only for keys that [HasKey]
    reported. *)
Definition KeyString (s : Section_) (k : string) : string :=
  match lookup k (Keys s) with Some v => v | None => "" end.

(** Removes the section (every section) of that name. *)
Definition DeleteSection (f : File) (name : string) : File :=
  filter (fun s => negb (String.eqb (Name s) name)) f.

Definition hasSection (f : File) (name : string) : bool :=
  existsb (fun s => String.eqb (Name s) name) f.

(** Appends an empty section of that name; an empty name is refused, and
    a name already present yields the section that is there. *)
Definition NewSection (f : File) (name : string) : result File :=
  if String.eqb name "" then Err "empty section name"
  else if hasSection f name then Ok f
  else Ok (f ++ [ {| Name := name; Keys := [] |} ]).

(** Sets key [k] of a section: an existing key keeps its place and takes
    the new value, a new key goes to the end. *)
Fixpoint setKey (k v : string) (kvs : list (string * string))
    : list (string * string) :=
  match kvs with
  | [] => [(k, v)]
  | (k', v') :: rest =>
      if String.eqb k' k then (k', v) :: rest else (k', v') :: setKey k v rest
  end.

(** Writes the tagged fields of a struct into a key list, in declaration
    order, skipping an [omitempty] field whose value is empty. *)
Definition reflectFields (fs : list iniField) (kvs : list (string * string))
    : list (string * string) :=
  fold_left
    (fun acc fd =>
       if omitEmpty fd && String.eqb (fieldValue fd) "" then acc
       else setKey (tagKey fd) (fieldValue fd) acc)
    fs kvs.

(** [section.ReflectFrom(entry)] for the section called [name].  All
    fields are strings, for which the reflection cannot fail. *)
Definition ReflectFrom (f : File) (name : string) (fs : list iniField) : File :=
  map (fun s =>
         if String.eqb (Name s) name
         then {| Name := Name s; Keys := reflectFields fs (Keys s) |}
         else s)
      f.

End ini.

(** ** The template engine *)

(** [text/template] with the sprig function map is a library outside the
    repository; [Merge] uses it through [Parse] and [Execute] only.
    [Execute] is given the profile and yields the rendered text or an
    error.  The function map [Merge] installs ([sprig.TxtFuncMap()]) also
    holds functions that read the clock, a random source or the process
    environment, so an engine stands for the library as one call of [Merge]
    meets it, in one state of that environment; a later call may meet
    another engine. *)
Class TemplateEngine := {
  Template : Type;
  Parse : string -> result Template;
  Execute : Template -> SSOProfile -> result string
}.

(** ** Stable sort *)

(** [sort.SliceStable(s, less)]: the stable rearrangement of [s] that is
    sorted for [less]; written as insertion from the right, where an element
    moves past exactly the elements strictly less than it. *)
Section SliceStable.
Context {A : Type} (less : A -> A -> bool).

Fixpoint insertStable (x : A) (l : list A) : list A :=
  match l with
  | [] => [x]
  | y :: l' => if less y x then y :: insertStable x l' else x :: l
  end.

Fixpoint SliceStable (l : list A) : list A :=
  match l with
  | [] => []
  | x :: l' => insertStable x (SliceStable l')
  end.
End SliceStable.

(** ** Merge *)

Module MergeOpts.
Record t := {
  Config : ini.File;
  Prefix : string;
  Profiles : list SSOProfile;
  SectionNameTemplate : string;
  NoCredentialProcess : bool;
  PruneStartURLs : list string
}.
End MergeOpts.

(** What the caller holds when [Merge] returns: the document behind
    [opts.Config], the backing array of [opts.Profiles] (the slice header is
    copied with [opts], the array is shared), and the returned error. *)
Record MergeOutcome := {
  outConfig : ini.File;
  outProfiles : list SSOProfile;
  outErr : option error
}.

Definition combinedName (p : SSOProfile) : string :=
  AccountName p +++ "/" +++ RoleName p.

(** The [less] function handed to [sort.SliceStable]. *)
Definition lessCombined (p q : SSOProfile) : bool :=
  String.ltb (combinedName p) (combinedName q).

(** The start URL the pruning loop reads off a section. *)
Definition sectionStartURL (sec : ini.Section_) : string :=
  if ini.HasKey sec "granted_sso_start_url"
  then ini.KeyString sec "granted_sso_start_url"
  else if ini.HasKey sec "sso_start_url"
       then ini.KeyString sec "sso_start_url"
       else "".

(** The inner loop over [opts.PruneStartURLs] for one section. *)
Definition pruneSection (pruneStartURLs : list string) (sec : ini.Section_)
    (config : ini.File) : ini.File :=
  let startURL := sectionStartURL sec in
  fold_left
    (fun cfg pruneURL =>
       let isGenerated := ini.HasKey sec "common_fate_generated_from" in
       if isGenerated && String.eqb startURL pruneURL
       then ini.DeleteSection cfg (ini.Name sec)
       else cfg)
    pruneStartURLs config.

(** The pruning loop: it ranges over the sections the document had when the
    loop started. *)
Definition prunePass (pruneStartURLs : list string) (config : ini.File)
    : ini.File :=
  fold_left (fun cfg sec => pruneSection pruneStartURLs sec cfg)
            (ini.Sections config) config.

Section Merge.
Context {engine : TemplateEngine}.

(** One iteration of the insertion loop. *)
Definition insertProfile (prefix : string) (noCredentialProcess : bool)
    (sectionNameTempl : Template) (ssoProfile : SSOProfile) (config : ini.File)
    : ini.File * option error :=
  let ssoProfile :=
    withAccountName (normalizeAccountName (AccountName ssoProfile)) ssoProfile in
  match Execute sectionNameTempl ssoProfile with
  | Err e => (config, Some e)
  | Ok rendered =>
      let profileName := prefix +++ rendered in
      let sectionName := "profile " +++ profileName in
      let config := ini.DeleteSection config sectionName in
      match ini.NewSection config sectionName with
      | Err e => (config, Some e)
      | Ok config =>
          let entry := ToIni ssoProfile profileName noCredentialProcess in
          (ini.ReflectFrom config sectionName (iniFields entry), None)
      end
  end.

(** The insertion loop; it stops at the first error. *)
Fixpoint insertPass (prefix : string) (noCredentialProcess : bool)
    (sectionNameTempl : Template) (profiles : list SSOProfile)
    (config : ini.File) : ini.File * option error :=
  match profiles with
  | [] => (config, None)
  | ssoProfile :: rest =>
      match insertProfile prefix noCredentialProcess sectionNameTempl
              ssoProfile config with
      | (config, Some e) => (config, Some e)
      | (config, None) =>
          insertPass prefix noCredentialProcess sectionNameTempl rest config
      end
  end.

Definition Merge (opts : MergeOpts.t) : MergeOutcome :=
  let sectionNameTemplate :=
    if String.eqb (MergeOpts.SectionNameTemplate opts) ""
    then "{{ .AccountName }}/{{ .RoleName }}"
    else MergeOpts.SectionNameTemplate opts in
  let profiles := SliceStable lessCombined (MergeOpts.Profiles opts) in
  match Parse sectionNameTemplate with
  | Err e =>
      {| outConfig := MergeOpts.Config opts;
         outProfiles := profiles;
         outErr := Some e |}
  | Ok sectionNameTempl =>
      let config :=
        prunePass (MergeOpts.PruneStartURLs opts) (MergeOpts.Config opts) in
      let '(config, err) :=
        insertPass (MergeOpts.Prefix opts) (MergeOpts.NoCredentialProcess opts)
          sectionNameTempl profiles config in
      {| outConfig := config; outProfiles := profiles; outErr := err |}
  end.

End Merge.

(** ** Regular expressions *)

(** The part of Go's [regexp] syntax the generator's two patterns use:
    character classes, the anchors [^] and [$] (no multi-line flag, so they
    mean begin and end of text), concatenation, alternation, and greedy or
    lazy repetition of a character class.  Matching is leftmost, and among
    the matches at one position the first in the order a backtracking
    search finds them, as Go's is.  A pattern is run on bytes; the classes
    used below contain or exclude ASCII bytes only. *)
Module regexp.

Inductive Regexp :=
| Class (p : ascii -> bool)
| BeginText
| EndText
| Cat (r1 r2 : Regexp)
| Alt (r1 r2 : Regexp)
| Star (p : ascii -> bool)
| LazyStar (p : ascii -> bool).

Definition orElse {A : Type} (a b : option A) : option A :=
  match a with Some _ => a | None => b end.

(** [p*]: as many bytes as possible first. *)
Fixpoint star (p : ascii -> bool) (bot : bool) (s : string)
    (k : bool -> string -> option string) : option string :=
  match s with
  | String c s' =>
      if p c then orElse (star p false s' k) (k bot s) else k bot s
  | EmptyString => k bot s
  end.

(** [p*?]: as few bytes as possible first. *)
Fixpoint lazyStar (p : ascii -> bool) (bot : bool) (s : string)
    (k : bool -> string -> option string) : option string :=
  match s with
  | String c s' =>
      if p c then orElse (k bot s) (lazyStar p false s' k) else k bot s
  | EmptyString => k bot s
  end.

(** [run r bot s k]: match [r] at the front of [s] and hand what is left
    to [k]; [bot] tells whether [s] is the whole text. *)
Fixpoint run (r : Regexp) (bot : bool) (s : string)
    (k : bool -> string -> option string) : option string :=
  match r with
  | Class p =>
      match s with
      | String c s' => if p c then k false s' else None
      | EmptyString => None
      end
  | BeginText => if bot then k bot s else None
  | EndText => match s with EmptyString => k bot s | _ => None end
  | Cat r1 r2 => run r1 bot s (fun b t => run r2 b t k)
  | Alt r1 r2 => orElse (run r1 bot s k) (run r2 bot s k)
  | Star p => star p bot s k
  | LazyStar p => lazyStar p bot s k
  end.

(** The text left after the preferred match that starts here. *)
Definition matchHere (r : Regexp) (bot : bool) (s : string) : option string :=
  run r bot s (fun _ t => Some t).

Fixpoint search (r : Regexp) (bot : bool) (s : string) : bool :=
  match matchHere r bot s with
  | Some _ => true
  | None =>
      match s with
      | EmptyString => false
      | String _ s' => search r false s'
      end
  end.

Definition MatchString (r : Regexp) (s : string) : bool := search r true s.

(** [ReplaceAllString(s, "")] for a pattern whose matches are not empty:
    [skip] counts the bytes of the current match still to be dropped. *)
Fixpoint removeAll (r : Regexp) (bot : bool) (skip : nat) (s : string) : string :=
  match s with
  | EmptyString => EmptyString
  | String c s' =>
      match skip with
      | S n => removeAll r false n s'
      | O =>
          match matchHere r bot s with
          | Some t =>
              match String.length s - String.length t with
              | S n => removeAll r false n s'
              | O => String c (removeAll r false 0 s')
              end
          | None => String c (removeAll r false 0 s')
          end
      end
  end.

Definition ReplaceAllEmpty (r : Regexp) (s : string) : string :=
  removeAll r true 0 s.

Definition lit (c : ascii) : Regexp := Class (Ascii.eqb c).

Definition anyByte (c : ascii) : bool := true.

Definition inSet (set : string) (c : ascii) : bool :=
  existsb (Ascii.eqb c) (list_ascii_of_string set).

(** [\s]: tab, newline, form feed, carriage return, space. *)
Definition space (c : ascii) : bool :=
  inSet (String "009" (String "010" (String "012" (String "013" " ")))) c.

End regexp.

(** [strings.ContainsAny(s, chars)]. *)
Definition ContainsAny (s chars : string) : bool :=
  existsb (regexp.inSet chars) (list_ascii_of_string s).

(** ** The generator *)

(** A source, seen through the one call [Generate] makes to it. *)
Record Source := {
  GetProfiles : result (list SSOProfile)
}.

Module Generator.
Record t := {
  Sources : list Source;
  Config : ini.File;
  NoCredentialProcess : bool;
  ProfileNameTemplate : string;
  Prefix : string;
  PruneStartURLs : list string
}.
End Generator.

(** The double-quote byte. *)
Definition dquote : ascii := "034"%char.

(** The raw string constant of the source: space, backslash, closing
    bracket, opening bracket, semicolon, single quote, double quote. *)
Definition profileSectionIllegalChars : string :=
  String " " (String "\" (String "]" (String "[" (String ";"
    (String "'" (String dquote EmptyString)))))).

(** The first character class of the pattern below: white space, both
    brackets, semicolon and both quotes. *)
Definition illegalOrSpace (c : ascii) : bool :=
  regexp.space c || regexp.inSet "][;'" c || Ascii.eqb c dquote.

(** Its second character class: the same without white space. *)
Definition illegalNonSpace (c : ascii) : bool :=
  regexp.inSet "][;'" c || Ascii.eqb c dquote.

(** The pattern of the source, with Q and QQ written for the single and the
    double quote:
    (?s)((?:^|[^\{])[\s\][;QQQ]|[\][;QQQ][\s]*(?:$|[^\}])) *)
Definition profileSectionIllegalCharsRegex : regexp.Regexp :=
  regexp.Alt
    (regexp.Cat
       (regexp.Alt regexp.BeginText
          (regexp.Class (fun c => negb (Ascii.eqb c "{"))))
       (regexp.Class illegalOrSpace))
    (regexp.Cat (regexp.Class illegalNonSpace)
       (regexp.Cat (regexp.Star regexp.space)
          (regexp.Alt regexp.EndText
             (regexp.Class (fun c => negb (Ascii.eqb c "}")))))).

(** The pattern \{\{[\s\S]*?\}\} of the source. *)
Definition matchGoTemplateSection : regexp.Regexp :=
  regexp.Cat (regexp.lit "{")
    (regexp.Cat (regexp.lit "{")
       (regexp.Cat (regexp.LazyStar regexp.anyByte)
          (regexp.Cat (regexp.lit "}") (regexp.lit "}")))).

Definition DefaultProfileNameTemplate : string :=
  "{{ .AccountName }}/{{ .RoleName }}".

(** The state the tasks of the errgroup share: the first error recorded by
    the group, the [profiles] slice guarded by the mutex, and the number of
    [GetProfiles] calls made. *)
Record groupState := {
  firstErr : option error;
  collected : list SSOProfile;
  calls : nat
}.

(** One task, from its call to [GetProfiles] to its return.  A task touches
    the shared state only at its end and under the group's or the mutex's
    lock, so it acts on the state at once. *)
Definition runTask (st : groupState) (s : Source) : groupState :=
  match GetProfiles s with
  | Err e =>
      {| firstErr := match firstErr st with Some e0 => Some e0 | None => Some e end;
         collected := collected st;
         calls := S (calls st) |}
  | Ok got =>
      {| firstErr := firstErr st;
         collected := collected st ++ got;
         calls := S (calls st) |}
  end.

Record GenerateOutcome := {
  genConfig : ini.File;
  genErr : option error;
  genCalls : nat
}.

Section Generate.
Context {engine : TemplateEngine}.

Definition illegalMessage (what : string) : error :=
  what +++ " must not contain any of these illegal characters ("
    +++ profileSectionIllegalChars +++ ")".

(** [Generate], given the order in which the tasks of the group finish:
    [finished] lists [g.Sources] in that order. *)
Definition GenerateIn (finished : list Source) (g : Generator.t)
    : GenerateOutcome :=
  if ContainsAny (Generator.Prefix g) profileSectionIllegalChars then
    {| genConfig := Generator.Config g;
       genErr := Some (illegalMessage "profile prefix");
       genCalls := 0 |}
  else
    let profileNameTemplate :=
      if String.eqb (Generator.ProfileNameTemplate g) ""
      then DefaultProfileNameTemplate
      else Generator.ProfileNameTemplate g in
    if negb (String.eqb profileNameTemplate DefaultProfileNameTemplate)
       && regexp.MatchString profileSectionIllegalCharsRegex
            (regexp.ReplaceAllEmpty matchGoTemplateSection profileNameTemplate)
    then
      {| genConfig := Generator.Config g;
         genErr := Some (illegalMessage "profile template");
         genCalls := 0 |}
    else
      let st :=
        fold_left runTask finished
          {| firstErr := None; collected := []; calls := 0 |} in
      match firstErr st with
      | Some e =>
          {| genConfig := Generator.Config g;
             genErr := Some e;
             genCalls := calls st |}
      | None =>
          let out :=
            Merge
              {| MergeOpts.Config := Generator.Config g;
                 MergeOpts.SectionNameTemplate := profileNameTemplate;
                 MergeOpts.Profiles := collected st;
                 MergeOpts.NoCredentialProcess := Generator.NoCredentialProcess g;
                 MergeOpts.Prefix := Generator.Prefix g;
                 MergeOpts.PruneStartURLs := Generator.PruneStartURLs g |} in
          {| genConfig := outConfig out;
             genErr := outErr out;
             genCalls := calls st |}
      end.

(** The outcomes of [g.Generate(ctx)]: one for each order in which the
    concurrent tasks may finish. *)
Definition Generate (g : Generator.t) (out : GenerateOutcome) : Prop :=
  exists finished,
    Permutation finished (Generator.Sources g) /\ out = GenerateIn finished g.

End Generate.

(** ** A template engine for the field fragment *)

(** The fragment of [text/template] that the default template lives in:
    literal text and actions that name one field of the profile, as in
    [{{ .AccountName }}].  Any other action is outside the fragment and is
    answered with a parse error; an unknown field fails at execution, and an
    action that is not closed fails at parsing, as in Go. *)
Module fieldTemplate.

Inductive node :=
| Text (s : string)
| Field (name : string).

Inductive lexState := InText | SeenOpen | InAction | SeenClose.

Definition str (revChars : list ascii) : string :=
  string_of_list_ascii (rev revChars).

Fixpoint dropSpaces (l : list ascii) : list ascii :=
  match l with
  | c :: l' => if Ascii.eqb c " " then dropSpaces l' else l
  | [] => []
  end.

Definition identChar (c : ascii) : bool :=
  let n := nat_of_ascii c in
  (Nat.leb 65 n && Nat.leb n 90) || (Nat.leb 97 n && Nat.leb n 122)
  || (Nat.leb 48 n && Nat.leb n 57) || Nat.eqb n 95.

(** The action text, given reversed: [.Name] between optional spaces. *)
Definition action (revChars : list ascii) : result node :=
  match dropSpaces (rev (dropSpaces revChars)) with
  | c :: name =>
      if Ascii.eqb c "." && forallb identChar name
         && negb (Nat.eqb (List.length name) 0)
      then Ok (Field (string_of_list_ascii name))
      else Err "template: unsupported action"
  | [] => Err "template: missing value for command"
  end.

Fixpoint lex (st : lexState) (acc : list ascii) (out : list node) (s : string)
    : result (list node) :=
  match s with
  | EmptyString =>
      match st with
      | InText => Ok (rev (Text (str acc) :: out))
      | SeenOpen => Ok (rev (Text (str ("{"%char :: acc)) :: out))
      | InAction | SeenClose => Err "template: unclosed action"
      end
  | String c s' =>
      match st with
      | InText =>
          if Ascii.eqb c "{" then lex SeenOpen acc out s'
          else lex InText (c :: acc) out s'
      | SeenOpen =>
          if Ascii.eqb c "{" then lex InAction [] (Text (str acc) :: out) s'
          else lex InText (c :: "{"%char :: acc) out s'
      | InAction =>
          if Ascii.eqb c "}" then lex SeenClose acc out s'
          else lex InAction (c :: acc) out s'
      | SeenClose =>
          if Ascii.eqb c "}" then
            match action acc with
            | Ok n => lex InText [] (n :: out) s'
            | Err e => Err e
            end
          else lex InAction (c :: "}"%char :: acc) out s'
      end
  end.

Definition parse (text : string) : result (list node) := lex InText [] [] text.

Definition fieldOf (name : string) (p : SSOProfile) : result string :=
  if String.eqb name "SSOStartURL" then Ok (SSOStartURL p)
  else if String.eqb name "SSORegion" then Ok (SSORegion p)
  else if String.eqb name "Region" then Ok (Region p)
  else if String.eqb name "AccountID" then Ok (AccountID p)
  else if String.eqb name "AccountName" then Ok (AccountName p)
  else if String.eqb name "RoleName" then Ok (RoleName p)
  else if String.eqb name "CommonFateURL" then Ok (CommonFateURL p)
  else if String.eqb name "GeneratedFrom" then Ok (GeneratedFrom p)
  else Err ("template: can't evaluate field " +++ name).

Fixpoint execute (t : list node) (p : SSOProfile) : result string :=
  match t with
  | [] => Ok ""
  | n :: rest =>
      match (match n with Text s => Ok s | Field name => fieldOf name p end) with
      | Err e => Err e
      | Ok s =>
          match execute rest p with
          | Err e => Err e
          | Ok s' => Ok (s +++ s')
          end
      end
  end.

Definition engine : TemplateEngine :=
  {| Template := list node; Parse := parse; Execute := execute |}.

End fieldTemplate.

(** ** The scenarios of the test tables *)

Definition exampleConfig : ini.File :=
  [ {| ini.Name := "DEFAULT"; ini.Keys := [] |};
    {| ini.Name := "profile example"; ini.Keys := [("test", "1")] |} ].

Definition testingDevRole : SSOProfile :=
  {| SSOStartURL := "https://example.com";
     SSORegion := "ap-southeast-2";
     Region := "";
     AccountID := "123456789012";
     AccountName := "testing";
     RoleName := "DevRole";
     CommonFateURL := "https://commonfate.example.com";
     GeneratedFrom := "aws-sso" |}.

Definition account (accountName roleName : string) : SSOProfile :=
  {| SSOStartURL := "https://example.awsapps.com/start";
     SSORegion := "ap-southeast-2";
     Region := "us-west-2";
     AccountID := "123456789012";
     AccountName := accountName;
     RoleName := roleName;
     CommonFateURL := "";
     GeneratedFrom := "aws-sso" |}.

Definition optsFor (config : ini.File) (profiles : list SSOProfile)
    (noCredentialProcess : bool) (prune : list string) : MergeOpts.t :=
  {| MergeOpts.Config := config;
     MergeOpts.Prefix := "";
     MergeOpts.Profiles := profiles;
     MergeOpts.SectionNameTemplate := "";
     MergeOpts.NoCredentialProcess := noCredentialProcess;
     MergeOpts.PruneStartURLs := prune |}.

(** * The vocabulary of the statements *)

(** Whether the name of a section is one of [l]. *)
Definition nameIn (l : list string) (s : ini.Section_) : bool :=
  existsb (String.eqb (ini.Name s)) l.

Definition nameNotIn (l : list string) (s : ini.Section_) : bool :=
  negb (nameIn l s).

(** Delete-before-insert, as one step on the document. *)
Definition put (f : ini.File) (s : ini.Section_) : ini.File :=
  ini.DeleteSection f (ini.Name s) ++ [s].

(** Of the sections of one name, the last. *)
Fixpoint keepLast (ss : list ini.Section_) : list ini.Section_ :=
  match ss with
  | [] => []
  | s :: rest =>
      if nameIn (ini.names rest) s then keepLast rest else s :: keepLast rest
  end.

(** The test the pruning loop applies to a section. *)
Definition shouldPrune (urls : list string) (sec : ini.Section_) : bool :=
  ini.HasKey sec "common_fate_generated_from"
  && existsb (String.eqb (sectionStartURL sec)) urls.

(** The names the pruning pass deletes. *)
Definition doomed (urls : list string) (f : ini.File) : list string :=
  ini.names (filter (shouldPrune urls) f).

(** The template text [Merge] parses. *)
Definition effectiveTemplate (opts : MergeOpts.t) : string :=
  if String.eqb (MergeOpts.SectionNameTemplate opts) ""
  then "{{ .AccountName }}/{{ .RoleName }}"
  else MergeOpts.SectionNameTemplate opts.

(** The copy of a profile the insertion loop works on. *)
Definition normalized (p : SSOProfile) : SSOProfile :=
  withAccountName (normalizeAccountName (AccountName p)) p.

Section SectionFor.
Context {engine : TemplateEngine}.

(** The section one iteration of the insertion loop writes. *)
Definition sectionFor (prefix : string) (noCredentialProcess : bool)
    (t : Template) (p : SSOProfile) : result ini.Section_ :=
  match Execute t (normalized p) with
  | Err e => Err e
  | Ok rendered =>
      Ok {| ini.Name := "profile " +++ prefix +++ rendered;
            ini.Keys :=
              ini.reflectFields
                (iniFields
                   (ToIni (normalized p) (prefix +++ rendered) noCredentialProcess))
                [] |}
  end.

End SectionFor.

(** [a] may stand before [b] in a slice sorted for [less]. *)
Definition mayPrecede {A : Type} (less : A -> A -> bool) (a b : A) : Prop :=
  less b a = false.

(** [p] may stand before [q] after the sort: the combined name of [q] is
    not below that of [p]. *)
Definition combinedNameLe (p q : SSOProfile) : Prop :=
  mayPrecede lessCombined p q.

(** A list obtained by dropping elements. *)
Inductive dropsFrom {A : Type} : list A -> list A -> Prop :=
| drops_nil : dropsFrom [] []
| drops_skip x l l' : dropsFrom l l' -> dropsFrom l (x :: l')
| drops_keep x l l' : dropsFrom l l' -> dropsFrom (x :: l) (x :: l').

(** The options of a call, directed at another document and profile slice. *)
Definition callWith (opts : MergeOpts.t) (config : ini.File)
    (profiles : list SSOProfile) : MergeOpts.t :=
  {| MergeOpts.Config := config;
     MergeOpts.Prefix := MergeOpts.Prefix opts;
     MergeOpts.Profiles := profiles;
     MergeOpts.SectionNameTemplate := MergeOpts.SectionNameTemplate opts;
     MergeOpts.NoCredentialProcess := MergeOpts.NoCredentialProcess opts;
     MergeOpts.PruneStartURLs := MergeOpts.PruneStartURLs opts |}.

(** The key list of a written section: the fixed keys of the style, then
    [region] when the profile has one. *)
Definition writtenKeys (noCredentialProcess : bool) (p : SSOProfile)
    (profileName : string) : list (string * string) :=
  (if noCredentialProcess then
     [ ("sso_start_url", SSOStartURL p);
       ("sso_region", SSORegion p);
       ("sso_account_id", AccountID p);
       ("common_fate_generated_from", GeneratedFrom p);
       ("sso_role_name", RoleName p) ]
   else
     [ ("granted_sso_start_url", SSOStartURL p);
       ("granted_sso_region", SSORegion p);
       ("granted_sso_account_id", AccountID p);
       ("granted_sso_role_name", RoleName p);
       ("common_fate_generated_from", GeneratedFrom p);
       ("credential_process",
        if String.eqb (CommonFateURL p) ""
        then "granted credential-process --profile " +++ profileName
        else ("granted credential-process --profile " +++ profileName)
               +++ " --url " +++ CommonFateURL p) ])
  ++ (if String.eqb (Region p) "" then [] else [("region", Region p)]).

(** The lexicographic order on the pair (display name, role name). *)
Definition pairLess (p q : SSOProfile) : bool :=
  String.ltb (AccountName p) (AccountName q)
  || (String.eqb (AccountName p) (AccountName q)
      && String.ltb (RoleName p) (RoleName q)).

(** The text [Generate] validates and hands to [Merge]. *)
Definition templateOf (g : Generator.t) : string :=
  if String.eqb (Generator.ProfileNameTemplate g) ""
  then DefaultProfileNameTemplate
  else Generator.ProfileNameTemplate g.

(** The two checks [Generate] makes before it starts a task. *)
Definition prefixRejected (g : Generator.t) : bool :=
  ContainsAny (Generator.Prefix g) profileSectionIllegalChars.

Definition templateRejected (g : Generator.t) : bool :=
  negb (String.eqb (templateOf g) DefaultProfileNameTemplate)
  && regexp.MatchString profileSectionIllegalCharsRegex
       (regexp.ReplaceAllEmpty matchGoTemplateSection (templateOf g)).

(** [g.AddSource(source)]: the generator after the call. *)
Definition AddSource (g : Generator.t) (source : Source) : Generator.t :=
  {| Generator.Sources := Generator.Sources g ++ [source];
     Generator.Config := Generator.Config g;
     Generator.NoCredentialProcess := Generator.NoCredentialProcess g;
     Generator.ProfileNameTemplate := Generator.ProfileNameTemplate g;
     Generator.Prefix := Generator.Prefix g;
     Generator.PruneStartURLs := Generator.PruneStartURLs g |}.

(** The profiles a source hands over; none when it fails. *)
Definition profilesOf (s : Source) : list SSOProfile :=
  match GetProfiles s with
  | Ok got => got
  | Err _ => []
  end.

(** The bytes of a string. *)
Definition bytes (s : string) : list ascii := list_ascii_of_string s.

(** The options [Generate] hands to [Merge] with the collected profiles. *)
Definition mergeOptsOf (g : Generator.t) (profiles : list SSOProfile)
    : MergeOpts.t :=
  {| MergeOpts.Config := Generator.Config g;
     MergeOpts.SectionNameTemplate := templateOf g;
     MergeOpts.Profiles := profiles;
     MergeOpts.NoCredentialProcess := Generator.NoCredentialProcess g;
     MergeOpts.Prefix := Generator.Prefix g;
     MergeOpts.PruneStartURLs := Generator.PruneStartURLs g |}.

(** Whether a string starts with the byte [c]. *)
Definition headIs (c : ascii) (s : string) : bool :=
  match s with
  | String b _ => Ascii.eqb b c
  | EmptyString => false
  end.

(** Whether the byte [c] stands twice in a row somewhere in a string. *)
Fixpoint hasPair (c : ascii) (s : string) : bool :=
  match s with
  | EmptyString => false
  | String a s' => (Ascii.eqb a c && headIs c s') || hasPair c s'
  end.

(** The end of [matchGoTemplateSection]: the two closing braces. *)
Definition closeBraces : regexp.Regexp :=
  regexp.Cat (regexp.lit "}") (regexp.lit "}").

(** ** Concrete inputs *)

(** The default template, parsed by the field engine. *)
Definition defaultTempl : list fieldTemplate.node :=
  [ fieldTemplate.Text ""; fieldTemplate.Field "AccountName";
    fieldTemplate.Text "/"; fieldTemplate.Field "RoleName";
    fieldTemplate.Text "" ].

(** The document and the profile of the tests, with the start URL of the
    profile among the prune URLs, so that a second run prunes the section
    the first run wrote and writes it again. *)
Definition pruningOpts : MergeOpts.t :=
  optsFor exampleConfig [testingDevRole] false ["https://example.com"].

(** A document with a generated section and a hand-written one that holds
    the same start URL but not the marker. *)
Definition mixedConfig : ini.File :=
  [ {| ini.Name := "DEFAULT"; ini.Keys := [] |};
    {| ini.Name := "profile mine";
       ini.Keys := [("sso_start_url", "https://example.com")] |};
    {| ini.Name := "profile old/Role";
       ini.Keys := [("granted_sso_start_url", "https://example.com");
                    ("common_fate_generated_from", "")] |} ].

Definition failingSource : Source :=
  {| GetProfiles := Err "access denied" |}.

Definition workingSource : Source :=
  {| GetProfiles := Ok [testingDevRole] |}.

Definition generatorFor (sources : list Source) (template : string)
    : Generator.t :=
  {| Generator.Sources := sources;
     Generator.Config := exampleConfig;
     Generator.NoCredentialProcess := false;
     Generator.ProfileNameTemplate := template;
     Generator.Prefix := "";
     Generator.PruneStartURLs := [] |}.

(** An engine for one template that can fail on a profile: it renders
    [AccountName/RoleName] and, like a template that uses sprig's [required]
    on the region, fails for a profile whose region is empty. *)
Definition regionRequired : TemplateEngine :=
  {| Template := unit;
     Parse := fun _ => Ok tt;
     Execute := fun _ p =>
       if String.eqb (Region p) "" then Err "region is required"
       else Ok (AccountName p +++ "/" +++ RoleName p) |}.

Definition accountNumbered (accountID accountName roleName : string)
    : SSOProfile :=
  {| SSOStartURL := "https://example.awsapps.com/start";
     SSORegion := "ap-southeast-2";
     Region := "us-west-2";
     AccountID := accountID;
     AccountName := accountName;
     RoleName := roleName;
     CommonFateURL := "";
     GeneratedFrom := "aws-sso" |}.

(** The section [Merge] writes for [accountNumbered id name role] under
    the default template, in the credential-helper style. *)
Definition sectionNumbered (accountID profileName roleName : string)
    : ini.Section_ :=
  {| ini.Name := "profile " +++ profileName;
     ini.Keys :=
       [ ("granted_sso_start_url", "https://example.awsapps.com/start");
         ("granted_sso_region", "ap-southeast-2");
         ("granted_sso_account_id", accountID);
         ("granted_sso_role_name", roleName);
         ("common_fate_generated_from", "aws-sso");
         ("credential_process",
          "granted credential-process --profile " +++ profileName);
         ("region", "us-west-2") ] |}.

Definition otherSource : Source :=
  {| GetProfiles := Ok [account "prod" "Admin"; account "staging" "Admin"] |}.

Definition generatorWithPrefix (prefix : string) : Generator.t :=
  {| Generator.Sources := [workingSource];
     Generator.Config := exampleConfig;
     Generator.NoCredentialProcess := false;
     Generator.ProfileNameTemplate := "";
     Generator.Prefix := prefix;
     Generator.PruneStartURLs := [] |}.

(** A template that reads the process environment through sprig's [env]. *)
Definition stageTemplate : string := "{{ env `STAGE` }}/{{ .RoleName }}".

(** The engine a call of [Merge] meets in a process whose environment
    variable [STAGE] holds [stage], for the template [stageTemplate]: the
    text renders to the value of the variable, a slash and the role name. *)
Definition envEngine (stage : string) : TemplateEngine :=
  {| Template := unit;
     Parse := fun text =>
       if String.eqb text stageTemplate then Ok tt
       else Err "template: not the stage template";
     Execute := fun _ p => Ok (stage +++ "/" +++ RoleName p) |}.

Definition stageOpts : MergeOpts.t :=
  {| MergeOpts.Config := exampleConfig;
     MergeOpts.Prefix := "";
     MergeOpts.Profiles := [testingDevRole];
     MergeOpts.SectionNameTemplate := stageTemplate;
     MergeOpts.NoCredentialProcess := false;
     MergeOpts.PruneStartURLs := [] |}.

(** Three profiles, supplied out of order. *)
Definition unsortedOpts : MergeOpts.t :=
  optsFor exampleConfig
    [ account "staging" "Admin"; account "prod" "Admin";
      account "prod-eu" "Admin" ]
    false [].

(** A document with two sections of one name, the second one generated. *)
Definition namesakeConfig : ini.File :=
  [ {| ini.Name := "profile shared"; ini.Keys := [("region", "eu-west-1")] |};
    {| ini.Name := "profile shared";
       ini.Keys := [("granted_sso_start_url", "https://example.com");
                    ("common_fate_generated_from", "aws-sso")] |} ].

Ltac distinct_strings :=
  repeat (apply NoDup_cons; [simpl; intuition discriminate|]); apply NoDup_nil.

(** * Properties *)

(** ** Lists and filters *)

Lemma filter_all {A : Type} (p : A -> bool) (l : list A) :
  (forall x, In x l -> p x = true) -> filter p l = l.
Proof.
  induction l as [|a l IH]; intros Hall; simpl.
  - reflexivity.
  - rewrite (Hall a (or_introl eq_refl)). f_equal. apply IH.
    intros x Hx. apply Hall. now right.
Qed.

Lemma filter_none {A : Type} (p : A -> bool) (l : list A) :
  (forall x, In x l -> p x = false) -> filter p l = [].
Proof.
  induction l as [|a l IH]; intros Hall; simpl.
  - reflexivity.
  - rewrite (Hall a (or_introl eq_refl)). apply IH.
    intros x Hx. apply Hall. now right.
Qed.

Lemma filter_twice {A : Type} (p q : A -> bool) (l : list A) :
  filter p (filter q l) = filter (fun x => q x && p x) l.
Proof.
  induction l as [|a l IH]; simpl.
  - reflexivity.
  - destruct (q a); simpl.
    + destruct (p a); now rewrite IH.
    + exact IH.
Qed.

Lemma filter_swap {A : Type} (p q : A -> bool) (l : list A) :
  filter p (filter q l) = filter q (filter p l).
Proof.
  rewrite !filter_twice. apply filter_ext. intros a. apply andb_comm.
Qed.

Lemma NoDup_map_eq {A B : Type} (f : A -> B) (l : list A) (a b : A) :
  NoDup (map f l) -> In a l -> In b l -> f a = f b -> a = b.
Proof.
  induction l as [|x l IH]; simpl; intros Hnd Ha Hb Hf.
  - contradiction.
  - inversion Hnd as [|? ? Hnotin Hnd']; subst.
    destruct Ha as [Ha|Ha], Hb as [Hb|Hb]; subst.
    + reflexivity.
    + exfalso. apply Hnotin. rewrite Hf. now apply in_map.
    + exfalso. apply Hnotin. rewrite <- Hf. now apply in_map.
    + now apply IH.
Qed.

Lemma Forall2_In_l {A B : Type} (R : A -> B -> Prop) l l' x :
  Forall2 R l l' -> In x l -> exists y, In y l' /\ R x y.
Proof.
  induction 1 as [|a b l l' Hab _ IH]; simpl; intros Hin.
  - contradiction.
  - destruct Hin as [->|Hin].
    + exists b. auto.
    + destruct (IH Hin) as [y [Hy Hxy]]. exists y. auto.
Qed.

Lemma Forall2_In_r {A B : Type} (R : A -> B -> Prop) l l' y :
  Forall2 R l l' -> In y l' -> exists x, In x l /\ R x y.
Proof.
  induction 1 as [|a b l l' Hab _ IH]; simpl; intros Hin.
  - contradiction.
  - destruct Hin as [->|Hin].
    + exists a. auto.
    + destruct (IH Hin) as [x [Hx Hxy]]. exists x. auto.
Qed.

Lemma append_assoc (a b c : string) : (a +++ b) +++ c = a +++ b +++ c.
Proof.
  induction a as [|x a IH]; simpl.
  - reflexivity.
  - now rewrite IH.
Qed.

(** ** The document operations *)

Lemma nameIn_true l s : nameIn l s = true <-> In (ini.Name s) l.
Proof.
  unfold nameIn. rewrite existsb_exists. split.
  - intros [n [Hin Heq]]. apply String.eqb_eq in Heq. now rewrite Heq.
  - intros Hin. exists (ini.Name s). split; [exact Hin | apply String.eqb_refl].
Qed.

Lemma nameNotIn_true l s : nameNotIn l s = true <-> ~ In (ini.Name s) l.
Proof.
  unfold nameNotIn. rewrite negb_true_iff, <- not_true_iff_false.
  now rewrite nameIn_true.
Qed.

Lemma nameNotIn_false l s : nameNotIn l s = false <-> In (ini.Name s) l.
Proof.
  unfold nameNotIn. rewrite negb_false_iff. apply nameIn_true.
Qed.

Lemma DeleteSection_filter f n l :
  filter (nameNotIn l) (ini.DeleteSection f n) = filter (nameNotIn (n :: l)) f.
Proof.
  unfold ini.DeleteSection. rewrite filter_twice. apply filter_ext.
  intros s. unfold nameNotIn, nameIn. simpl. now rewrite negb_orb.
Qed.

Lemma DeleteSection_as_filter f n :
  ini.DeleteSection f n = filter (nameNotIn [n]) f.
Proof.
  unfold ini.DeleteSection. apply filter_ext. intros s.
  unfold nameNotIn, nameIn. simpl. now rewrite orb_false_r.
Qed.

Lemma DeleteSection_twice f n :
  ini.DeleteSection (ini.DeleteSection f n) n = ini.DeleteSection f n.
Proof.
  unfold ini.DeleteSection. rewrite filter_twice. apply filter_ext.
  intros s. apply andb_diag.
Qed.

Lemma hasSection_DeleteSection f n :
  ini.hasSection (ini.DeleteSection f n) n = false.
Proof.
  unfold ini.hasSection, ini.DeleteSection.
  induction f as [|s f IH]; simpl.
  - reflexivity.
  - destruct (String.eqb (ini.Name s) n) eqn:E; simpl.
    + exact IH.
    + now rewrite E.
Qed.

Lemma ReflectFrom_absent f n fs :
  ini.hasSection f n = false -> ini.ReflectFrom f n fs = f.
Proof.
  unfold ini.hasSection, ini.ReflectFrom.
  induction f as [|s f IH]; simpl; intros H.
  - reflexivity.
  - apply orb_false_iff in H. destruct H as [Hs Hf].
    rewrite Hs. f_equal. now apply IH.
Qed.

Lemma ReflectFrom_fresh f n fs :
  ini.hasSection f n = false ->
  ini.ReflectFrom (f ++ [ {| ini.Name := n; ini.Keys := [] |} ]) n fs
  = f ++ [ {| ini.Name := n; ini.Keys := ini.reflectFields fs [] |} ].
Proof.
  intros H. unfold ini.ReflectFrom. rewrite map_app.
  fold (ini.ReflectFrom f n fs). rewrite (ReflectFrom_absent _ _ _ H).
  simpl. now rewrite String.eqb_refl.
Qed.

Lemma put_all ss : forall f,
  fold_left put ss f
  = filter (nameNotIn (ini.names ss)) f ++ fold_left put ss [].
Proof.
  induction ss as [|s ss IH]; intros f; simpl.
  - rewrite app_nil_r. symmetry. now apply filter_all.
  - rewrite (IH (put f s)), (IH (put [] s)). unfold put. simpl.
    rewrite filter_app, DeleteSection_filter, <- app_assoc.
    reflexivity.
Qed.

Lemma put_keepLast ss : fold_left put ss [] = keepLast ss.
Proof.
  induction ss as [|s ss IH]; cbn [fold_left keepLast].
  - reflexivity.
  - rewrite put_all, IH. unfold put, nameNotIn. simpl.
    destruct (nameIn (ini.names ss) s); reflexivity.
Qed.

Lemma keepLast_incl ss s : In s (keepLast ss) -> In s ss.
Proof.
  induction ss as [|a ss IH]; simpl.
  - auto.
  - destruct (nameIn (ini.names ss) a); simpl; intuition.
Qed.

Lemma keepLast_names ss n : In n (ini.names (keepLast ss)) <-> In n (ini.names ss).
Proof.
  induction ss as [|a ss IH]; simpl.
  - tauto.
  - destruct (nameIn (ini.names ss) a) eqn:E; simpl.
    + apply nameIn_true in E. rewrite IH. split; [tauto|].
      intros [H|H]; [now subst | exact H].
    + now rewrite IH.
Qed.

(** ** The pruning pass *)

Lemma pruneSection_spec urls sec : forall cfg,
  pruneSection urls sec cfg
  = if shouldPrune urls sec then ini.DeleteSection cfg (ini.Name sec) else cfg.
Proof.
  unfold pruneSection, shouldPrune.
  induction urls as [|u urls IH]; intros cfg; simpl.
  - now rewrite andb_false_r.
  - rewrite IH. destruct (ini.HasKey sec "common_fate_generated_from"); simpl.
    + destruct (String.eqb (sectionStartURL sec) u); simpl.
      * rewrite DeleteSection_twice.
        now destruct (existsb (String.eqb (sectionStartURL sec)) urls).
      * reflexivity.
    + reflexivity.
Qed.

Lemma prune_fold urls snapshot : forall cfg,
  fold_left (fun c sec => pruneSection urls sec c) snapshot cfg
  = filter (nameNotIn (doomed urls snapshot)) cfg.
Proof.
  unfold doomed.
  induction snapshot as [|sec l IH]; intros cfg; simpl.
  - symmetry. now apply filter_all.
  - rewrite IH, pruneSection_spec.
    destruct (shouldPrune urls sec); simpl.
    + apply DeleteSection_filter.
    + reflexivity.
Qed.

Lemma prunePass_spec urls cfg :
  prunePass urls cfg = filter (nameNotIn (doomed urls cfg)) cfg.
Proof. apply prune_fold. Qed.

Lemma in_doomed urls f n :
  In n (doomed urls f) <->
  exists s, In s f /\ shouldPrune urls s = true /\ ini.Name s = n.
Proof.
  unfold doomed, ini.names. rewrite in_map_iff. split.
  - intros [s [Hn Hs]]. apply filter_In in Hs. exists s. tauto.
  - intros [s [Hin [Hp Hn]]]. exists s. split; [exact Hn|].
    apply filter_In. tauto.
Qed.

Lemma shouldPrune_true urls sec :
  shouldPrune urls sec = true <->
  ini.HasKey sec "common_fate_generated_from" = true
  /\ In (sectionStartURL sec) urls.
Proof.
  unfold shouldPrune. rewrite andb_true_iff, existsb_exists. split.
  - intros [Hk [u [Hin Heq]]]. apply String.eqb_eq in Heq. now subst.
  - intros [Hk Hin]. split; [exact Hk|].
    exists (sectionStartURL sec). split; [exact Hin | apply String.eqb_refl].
Qed.

(** ** The insertion pass *)

Section MergeFacts.
Context {engine : TemplateEngine}.

Lemma insertProfile_spec prefix flag t p cfg :
  insertProfile prefix flag t p cfg
  = match sectionFor prefix flag t p with
    | Err e => (cfg, Some e)
    | Ok s => (put cfg s, None)
    end.
Proof.
  unfold insertProfile, sectionFor, normalized.
  destruct (Execute t _) as [rendered|e]; [|reflexivity].
  unfold ini.NewSection.
  replace (String.eqb ("profile " +++ prefix +++ rendered) "") with false
    by reflexivity.
  rewrite hasSection_DeleteSection.
  rewrite ReflectFrom_fresh by apply hasSection_DeleteSection.
  reflexivity.
Qed.

Lemma insertPass_ok prefix flag t ps ss : forall cfg,
  Forall2 (fun p s => sectionFor prefix flag t p = Ok s) ps ss ->
  insertPass prefix flag t ps cfg = (fold_left put ss cfg, None).
Proof.
  intros cfg H. revert cfg.
  induction H as [|p s ps ss Hs _ IH]; intros cfg; simpl.
  - reflexivity.
  - rewrite insertProfile_spec, Hs. apply IH.
Qed.

Lemma insertPass_inv prefix flag t ps : forall cfg cfg',
  insertPass prefix flag t ps cfg = (cfg', None) ->
  exists ss, Forall2 (fun p s => sectionFor prefix flag t p = Ok s) ps ss.
Proof.
  induction ps as [|p ps IH]; intros cfg cfg'; simpl.
  - intros _. exists []. constructor.
  - rewrite insertProfile_spec.
    destruct (sectionFor prefix flag t p) as [s|e] eqn:Hs.
    + intros H. destruct (IH _ _ H) as [ss Hss].
      exists (s :: ss). now constructor.
    + discriminate.
Qed.

(** What a successful [Merge] leaves: the sections of the pruned document
    whose names were not written, then the written sections, each name
    once, in the order of the last profile that wrote it. *)
Lemma Merge_shape opts :
  outErr (Merge opts) = None ->
  exists t ss,
    Parse (effectiveTemplate opts) = Ok t
    /\ Forall2 (fun p s =>
                  sectionFor (MergeOpts.Prefix opts)
                    (MergeOpts.NoCredentialProcess opts) t p = Ok s)
               (SliceStable lessCombined (MergeOpts.Profiles opts)) ss
    /\ outConfig (Merge opts)
       = filter (nameNotIn (ini.names ss))
           (prunePass (MergeOpts.PruneStartURLs opts) (MergeOpts.Config opts))
         ++ keepLast ss.
Proof.
  unfold Merge. fold (effectiveTemplate opts).
  destruct (Parse (effectiveTemplate opts)) as [t|e]; [|discriminate].
  destruct (insertPass _ _ t _ _) as [cfg' err] eqn:Hpass. simpl.
  intros ->. destruct (insertPass_inv _ _ _ _ _ _ Hpass) as [ss Hss].
  exists t, ss. split; [reflexivity|]. split; [exact Hss|].
  rewrite (insertPass_ok _ _ _ _ _ _ Hss) in Hpass.
  injection Hpass as <-. now rewrite put_all, put_keepLast.
Qed.

Lemma Merge_of_shape opts t ss :
  Parse (effectiveTemplate opts) = Ok t ->
  Forall2 (fun p s =>
             sectionFor (MergeOpts.Prefix opts)
               (MergeOpts.NoCredentialProcess opts) t p = Ok s)
          (SliceStable lessCombined (MergeOpts.Profiles opts)) ss ->
  Merge opts
  = {| outConfig :=
         filter (nameNotIn (ini.names ss))
           (prunePass (MergeOpts.PruneStartURLs opts) (MergeOpts.Config opts))
         ++ keepLast ss;
       outProfiles := SliceStable lessCombined (MergeOpts.Profiles opts);
       outErr := None |}.
Proof.
  intros Ht Hss. unfold Merge. fold (effectiveTemplate opts). rewrite Ht.
  rewrite (insertPass_ok _ _ _ _ _ _ Hss). now rewrite put_all, put_keepLast.
Qed.

End MergeFacts.

(** ** The stable sort *)

Section SliceStableFacts.
Context {A : Type} (less : A -> A -> bool).

Lemma insertStable_perm x l : Permutation (insertStable less x l) (x :: l).
Proof.
  induction l as [|y l IH]; simpl.
  - apply Permutation_refl.
  - destruct (less y x).
    + eapply Permutation_trans; [apply perm_skip, IH | apply perm_swap].
    + apply Permutation_refl.
Qed.

Lemma SliceStable_perm l : Permutation (SliceStable less l) l.
Proof.
  induction l as [|x l IH]; simpl.
  - apply Permutation_refl.
  - eapply Permutation_trans; [apply insertStable_perm | now apply perm_skip].
Qed.

Lemma SliceStable_sorted_id l :
  StronglySorted (mayPrecede less) l -> SliceStable less l = l.
Proof.
  induction 1 as [|x l Hl IH Hx]; simpl.
  - reflexivity.
  - rewrite IH. destruct l as [|y l']; simpl.
    + reflexivity.
    + inversion Hx as [|? ? Hxy _]; subst. unfold mayPrecede in Hxy.
      now rewrite Hxy.
Qed.

Hypothesis less_asym : forall a b, less a b = true -> less b a = false.
Hypothesis mayPrecede_trans :
  forall a b c,
    mayPrecede less a b -> mayPrecede less b c -> mayPrecede less a c.

Lemma insertStable_sorted x l :
  StronglySorted (mayPrecede less) l -> StronglySorted (mayPrecede less) (insertStable less x l).
Proof.
  induction 1 as [|y l Hl IH Hy]; simpl.
  - repeat constructor.
  - destruct (less y x) eqn:E.
    + constructor; [exact IH|].
      eapply Permutation_Forall.
      * apply Permutation_sym, insertStable_perm.
      * constructor; [now apply less_asym | exact Hy].
    + constructor; [now constructor|].
      constructor; [exact E|].
      eapply Forall_impl; [|exact Hy].
      intros z Hz. now apply (mayPrecede_trans x y z).
Qed.

Lemma SliceStable_sorted l : StronglySorted (mayPrecede less) (SliceStable less l).
Proof.
  induction l as [|x l IH]; simpl.
  - constructor.
  - now apply insertStable_sorted.
Qed.

Lemma SliceStable_idempotent l :
  SliceStable less (SliceStable less l) = SliceStable less l.
Proof. apply SliceStable_sorted_id, SliceStable_sorted. Qed.

End SliceStableFacts.

(** ** The byte order on strings *)

Lemma ltb_lt a b :
  String.ltb a b = true <-> OrderedTypeEx.String_as_OT.lt a b.
Proof.
  rewrite <- OrderedTypeEx.String_as_OT.cmp_lt.
  unfold String.ltb, OrderedTypeEx.String_as_OT.cmp.
  destruct (String.compare a b); split; congruence.
Qed.

Lemma ltb_asym a b : String.ltb a b = true -> String.ltb b a = false.
Proof.
  unfold String.ltb. rewrite (String.compare_antisym a b).
  destruct (String.compare b a); simpl; congruence.
Qed.

Lemma ltb_false_trans a b c :
  String.ltb b a = false -> String.ltb c b = false -> String.ltb c a = false.
Proof.
  intros Hba Hcb. destruct (String.ltb c a) eqn:Hca; [exfalso|reflexivity].
  apply ltb_lt in Hca.
  destruct (String.compare c b) eqn:Hcmp.
  - apply String.compare_eq_iff in Hcmp. subst c.
    apply ltb_lt in Hca. congruence.
  - unfold String.ltb in Hcb. rewrite Hcmp in Hcb. discriminate.
  - assert (Hbc : String.ltb b c = true).
    { unfold String.ltb. rewrite String.compare_antisym, Hcmp. reflexivity. }
    apply ltb_lt in Hbc.
    pose proof (OrderedTypeEx.String_as_OT.lt_trans _ _ _ Hbc Hca) as Hlt.
    apply ltb_lt in Hlt. congruence.
Qed.

Lemma sortedProfiles_sorted ps :
  StronglySorted combinedNameLe (SliceStable lessCombined ps).
Proof.
  apply SliceStable_sorted.
  - intros a b. apply ltb_asym.
  - intros a b c. unfold mayPrecede, lessCombined. apply ltb_false_trans.
Qed.

Lemma dropsFrom_incl {A : Type} (l l' : list A) :
  dropsFrom l l' -> incl l l'.
Proof.
  induction 1 as [|x l l' _ IH|x l l' _ IH]; intros a Ha.
  - exact Ha.
  - right. now apply IH.
  - destruct Ha as [->|Ha]; [now left | right; now apply IH].
Qed.

Lemma dropsFrom_sorted {A : Type} (R : A -> A -> Prop) (l l' : list A) :
  dropsFrom l l' -> StronglySorted R l' -> StronglySorted R l.
Proof.
  induction 1 as [|x l l' Hd IH|x l l' Hd IH]; intros Hs.
  - constructor.
  - inversion Hs; subst. now apply IH.
  - inversion Hs as [|? ? Hs' Hall]; subst. constructor.
    + now apply IH.
    + rewrite Forall_forall in *. intros a Ha. apply Hall.
      now apply (dropsFrom_incl _ _ Hd).
Qed.

(** The profiles whose sections survive in [keepLast]. *)
Lemma keepLast_profiles {A : Type} (R : A -> ini.Section_ -> Prop) ps ss :
  Forall2 R ps ss ->
  exists qs, dropsFrom qs ps /\ Forall2 R qs (keepLast ss).
Proof.
  induction 1 as [|p s ps ss Hps _ [qs [Hd Hq]]]; simpl.
  - exists []. split; constructor.
  - destruct (nameIn (ini.names ss) s).
    + exists qs. split; [now constructor | exact Hq].
    + exists (p :: qs). split; now constructor.
Qed.

(** ** Running Merge again *)

Lemma prunePass_survivor urls cfg s :
  In s (prunePass urls cfg) -> In s cfg /\ shouldPrune urls s = false.
Proof.
  rewrite prunePass_spec, filter_In, nameNotIn_true, in_doomed.
  intros [Hin Hnot]. split; [exact Hin|].
  destruct (shouldPrune urls s) eqn:E; [|reflexivity].
  exfalso. apply Hnot. now exists s.
Qed.

(** Pruning the merged document removes nothing from the part of it that
    the insertion pass did not write. *)
Lemma prune_merged urls cfg ss :
  filter (nameNotIn (ini.names ss))
    (prunePass urls
       (filter (nameNotIn (ini.names ss)) (prunePass urls cfg) ++ keepLast ss))
  = filter (nameNotIn (ini.names ss)) (prunePass urls cfg).
Proof.
  set (kept := filter (nameNotIn (ini.names ss)) (prunePass urls cfg)).
  rewrite (prunePass_spec urls (kept ++ keepLast ss)), filter_swap, filter_app.
  assert (Hkept : filter (nameNotIn (ini.names ss)) kept = kept).
  { apply filter_all. intros s Hs. now apply filter_In in Hs. }
  assert (Hnew : filter (nameNotIn (ini.names ss)) (keepLast ss) = []).
  { apply filter_none. intros s Hs. apply nameNotIn_false, keepLast_names.
    now apply in_map. }
  rewrite Hkept, Hnew, app_nil_r. apply filter_all.
  intros s Hs. apply nameNotIn_true. rewrite in_doomed.
  intros [s' [Hin [Hprune Hname]]].
  apply filter_In in Hs. destruct Hs as [Hs Hfresh].
  apply nameNotIn_true in Hfresh.
  apply in_app_or in Hin. destruct Hin as [Hin|Hin].
  - apply filter_In in Hin. destruct Hin as [Hin _].
    apply prunePass_survivor in Hin. destruct Hin as [_ Hno]. congruence.
  - apply Hfresh. rewrite <- Hname. apply keepLast_names. now apply in_map.
Qed.

Section MergeTheorems.
Context {engine : TemplateEngine}.

(** C8. A naming template that does not parse makes [Merge] return the
    parse error with the document exactly as it was. *)
Theorem Merge_parse_failure_leaves_document (opts : MergeOpts.t) (e : error) :
  Parse (effectiveTemplate opts) = Err e ->
  outConfig (Merge opts) = MergeOpts.Config opts
  /\ outErr (Merge opts) = Some e.
Proof.
  intros Hparse. unfold Merge. fold (effectiveTemplate opts).
  rewrite Hparse. split; reflexivity.
Qed.



Lemma sectionFor_keys prefix flag t p s :
  sectionFor prefix flag t p = Ok s ->
  exists rendered,
    Execute t (normalized p) = Ok rendered
    /\ ini.Name s = "profile " +++ prefix +++ rendered
    /\ ini.Keys s = writtenKeys flag p (prefix +++ rendered).
Proof.
  unfold sectionFor. destruct (Execute t (normalized p)) as [rendered|e];
    [|discriminate].
  intros [= <-]. exists rendered. split; [reflexivity|]. split; [reflexivity|].
  unfold writtenKeys, ToIni. simpl.
  destruct flag; simpl; destruct (String.eqb (Region p) ""); reflexivity.
Qed.

(** C7. The section the insertion loop writes for a profile holds exactly
    the keys of its style, in the order of the struct: the four identity
    keys and the origin marker, [credential_process] in the credential-helper
    style only, and [region] last, present only when the profile's region is
    not empty. *)
Theorem written_section_keys_in_fixed_order
    (prefix : string) (noCredentialProcess : bool) (t : Template)
    (p : SSOProfile) (cfg : ini.File) (rendered : string) :
  Execute t (normalized p) = Ok rendered ->
  exists s,
    insertProfile prefix noCredentialProcess t p cfg
    = (ini.DeleteSection cfg (ini.Name s) ++ [s], None)
    /\ ini.Name s = "profile " +++ prefix +++ rendered
    /\ map fst (ini.Keys s)
       = (if noCredentialProcess then
            [ "sso_start_url"; "sso_region"; "sso_account_id";
              "common_fate_generated_from"; "sso_role_name" ]
          else
            [ "granted_sso_start_url"; "granted_sso_region";
              "granted_sso_account_id"; "granted_sso_role_name";
              "common_fate_generated_from"; "credential_process" ])
         ++ (if String.eqb (Region p) "" then [] else ["region"]).
Proof.
  intros Hexec. rewrite insertProfile_spec.
  destruct (sectionFor prefix noCredentialProcess t p) as [s|e] eqn:Hs.
  - exists s. split; [reflexivity|].
    destruct (sectionFor_keys _ _ _ _ _ Hs) as [r [Hr [Hname Hkeys]]].
    rewrite Hexec in Hr. injection Hr as <-. split; [exact Hname|].
    rewrite Hkeys. unfold writtenKeys.
    destruct noCredentialProcess; destruct (String.eqb (Region p) "");
      reflexivity.
  - unfold sectionFor in Hs. rewrite Hexec in Hs. discriminate.
Qed.

(** C6. In the credential-helper style the section written for a profile
    has [credential_process] equal to the fixed command followed by the
    profile name (prefix and rendered name), and, only when the companion
    URL is not empty, by [ --url ] and that URL. *)
Theorem credential_process_value
    (prefix : string) (t : Template) (p : SSOProfile) (cfg : ini.File)
    (rendered : string) :
  Execute t (normalized p) = Ok rendered ->
  exists s,
    insertProfile prefix false t p cfg
    = (ini.DeleteSection cfg (ini.Name s) ++ [s], None)
    /\ ini.Name s = "profile " +++ prefix +++ rendered
    /\ (CommonFateURL p = "" ->
        ini.lookup "credential_process" (ini.Keys s)
        = Some ("granted credential-process --profile " +++ prefix +++ rendered))
    /\ (CommonFateURL p <> "" ->
        ini.lookup "credential_process" (ini.Keys s)
        = Some ("granted credential-process --profile " +++ prefix +++ rendered
                  +++ " --url " +++ CommonFateURL p)).
Proof.
  intros Hexec. rewrite insertProfile_spec.
  destruct (sectionFor prefix false t p) as [s|e] eqn:Hs.
  - exists s. split; [reflexivity|].
    destruct (sectionFor_keys _ _ _ _ _ Hs) as [r [Hr [Hname Hkeys]]].
    rewrite Hexec in Hr. injection Hr as <-. split; [exact Hname|].
    rewrite Hkeys. unfold writtenKeys. simpl. split.
    + intros Hurl. apply String.eqb_eq in Hurl. now rewrite Hurl.
    + intros Hurl. apply String.eqb_neq in Hurl. rewrite Hurl. simpl.
      now rewrite append_assoc.
  - unfold sectionFor in Hs. rewrite Hexec in Hs. discriminate.
Qed.

Lemma insertPass_prefix prefix flag t ps : forall cfg,
  exists before rest ss,
    ps = before ++ rest
    /\ Forall2 (fun p s => sectionFor prefix flag t p = Ok s) before ss
    /\ fst (insertPass prefix flag t ps cfg) = fold_left put ss cfg
    /\ (snd (insertPass prefix flag t ps cfg) = None -> rest = []).
Proof.
  induction ps as [|p ps IH]; intros cfg.
  - exists [], [], []. repeat split; constructor.
  - cbn [insertPass]. rewrite insertProfile_spec.
    destruct (sectionFor prefix flag t p) as [s|e] eqn:Hs.
    + destruct (IH (put cfg s)) as [before [rest [ss [Hps [Hss [Hfst Hsnd]]]]]].
      exists (p :: before), rest, (s :: ss).
      split; [now rewrite Hps|]. split; [now constructor|]. split; assumption.
    + exists [], (p :: ps), []. split; [reflexivity|].
      split; [constructor|]. split; [reflexivity|]. discriminate.
Qed.

(** C2, amended. For every profile list and every outcome of [Merge], the
    sections the call has written stand at the end of the document, after
    the sections kept from the input, and follow the ascending byte order
    of the combined name [AccountName/RoleName] of the profiles that wrote
    them, whatever the order of the supplied list; when the call succeeds,
    every profile has its section among them. *)
Theorem Merge_sections_in_combined_name_order (opts : MergeOpts.t) :
  exists kept writers written,
    outConfig (Merge opts) = kept ++ written
    /\ incl kept (MergeOpts.Config opts)
    /\ incl writers (MergeOpts.Profiles opts)
    /\ StronglySorted
         (fun p q => String.ltb (combinedName q) (combinedName p) = false)
         writers
    /\ Forall2 (fun p s =>
                  exists t,
                    Parse (effectiveTemplate opts) = Ok t
                    /\ sectionFor (MergeOpts.Prefix opts)
                         (MergeOpts.NoCredentialProcess opts) t p = Ok s)
               writers written
    /\ (forall s, In s kept -> ~ In (ini.Name s) (ini.names written))
    /\ (outErr (Merge opts) = None ->
        forall p, In p (MergeOpts.Profiles opts) ->
          exists t s,
            Parse (effectiveTemplate opts) = Ok t
            /\ sectionFor (MergeOpts.Prefix opts)
                 (MergeOpts.NoCredentialProcess opts) t p = Ok s
            /\ In (ini.Name s) (ini.names written)).
Proof.
  unfold Merge. fold (effectiveTemplate opts).
  destruct (Parse (effectiveTemplate opts)) as [t|e] eqn:Ht.
  2:{ exists (MergeOpts.Config opts), [], []. simpl. rewrite app_nil_r.
      repeat split; try constructor; try (intros ? []); auto.
      - apply incl_refl.
      - discriminate. }
  destruct (insertPass_prefix (MergeOpts.Prefix opts)
              (MergeOpts.NoCredentialProcess opts) t
              (SliceStable lessCombined (MergeOpts.Profiles opts))
              (prunePass (MergeOpts.PruneStartURLs opts) (MergeOpts.Config opts)))
    as [before [rest [ss [Hsplit [Hss [Hfst Hsnd]]]]]].
  destruct (insertPass _ _ t _ _) as [cfg' err]. simpl in Hfst, Hsnd. simpl.
  subst cfg'. rewrite put_all, put_keepLast.
  destruct (keepLast_profiles _ _ _ Hss) as [qs [Hdrop Hqs]].
  assert (Hbefore : incl before (MergeOpts.Profiles opts)).
  { intros p Hp. eapply Permutation_in; [apply SliceStable_perm|].
    rewrite Hsplit. apply in_or_app. now left. }
  exists (filter (nameNotIn (ini.names ss))
            (prunePass (MergeOpts.PruneStartURLs opts) (MergeOpts.Config opts))),
    qs, (keepLast ss).
  split; [reflexivity|]. split.
  { intros s Hs. apply filter_In in Hs. destruct Hs as [Hs _].
    now apply prunePass_survivor in Hs. }
  split.
  { intros p Hp. apply Hbefore. now apply (dropsFrom_incl _ _ Hdrop). }
  split.
  { apply (dropsFrom_sorted _ _ _ Hdrop).
    apply (dropsFrom_sorted _ before (before ++ rest)).
    - clear. induction before as [|a l IH]; simpl.
      + induction rest as [|b r IHr]; now constructor.
      + now apply drops_keep.
    - rewrite <- Hsplit. apply sortedProfiles_sorted. }
  split.
  { clear - Hqs. induction Hqs; constructor; auto. exists t. auto. }
  split.
  { intros s Hs. apply filter_In in Hs. destruct Hs as [_ Hs].
    apply nameNotIn_true in Hs. now rewrite keepLast_names. }
  intros Herr p Hp. specialize (Hsnd Herr). subst rest.
  rewrite app_nil_r in Hsplit.
  assert (Hp' : In p before).
  { rewrite <- Hsplit. eapply Permutation_in;
      [apply Permutation_sym, SliceStable_perm | exact Hp]. }
  destruct (Forall2_In_l _ _ _ _ Hss Hp') as [s [Hs Hps]].
  exists t, s. split; [reflexivity|]. split; [exact Hps|].
  apply keepLast_names. now apply in_map.
Qed.

(** Every section of the document a successful [Merge] leaves is a section
    of the input or was written for one of the profiles, under the name
    [profile], prefix, rendered template, with the keys of the style. *)
Lemma Merge_written_sections (opts : MergeOpts.t) (s : ini.Section_) :
  outErr (Merge opts) = None ->
  In s (outConfig (Merge opts)) ->
  In s (MergeOpts.Config opts)
  \/ exists t p rendered,
       Parse (effectiveTemplate opts) = Ok t
       /\ In p (MergeOpts.Profiles opts)
       /\ Execute t (normalized p) = Ok rendered
       /\ ini.Name s = "profile " +++ MergeOpts.Prefix opts +++ rendered
       /\ ini.Keys s
          = writtenKeys (MergeOpts.NoCredentialProcess opts) p
              (MergeOpts.Prefix opts +++ rendered).
Proof.
  intros Hok Hin. destruct (Merge_shape opts Hok) as [t [ss [Ht [Hss Hcfg]]]].
  rewrite Hcfg in Hin. apply in_app_or in Hin. destruct Hin as [Hin|Hin].
  - left. apply filter_In in Hin. destruct Hin as [Hin _].
    now apply prunePass_survivor in Hin.
  - right. apply keepLast_incl in Hin.
    destruct (Forall2_In_r _ _ _ _ Hss Hin) as [p [Hp Hps]].
    destruct (sectionFor_keys _ _ _ _ _ Hps) as [rendered [Hr [Hname Hkeys]]].
    exists t, p, rendered. repeat split; auto.
    eapply Permutation_in; [apply SliceStable_perm | exact Hp].
Qed.

End MergeTheorems.

Lemma Forall2_impl_In {A B : Type} (R R' : A -> B -> Prop) l l' :
  Forall2 R l l' ->
  (forall x y, In x l -> R x y -> R' x y) ->
  Forall2 R' l l'.
Proof.
  induction 1 as [|a b l l' Hab _ IH]; intros Himp.
  - constructor.
  - constructor.
    + apply Himp; [now left | exact Hab].
    + apply IH. intros x y Hx. apply Himp. now right.
Qed.

(** C1, amended. Idempotence holds when the rendering repeats: when [Merge]
    succeeds, and the engine the second call meets parses the template and
    renders each profile to the text the first call rendered it to, the
    second call on the document the first one produced, with the same
    options and the same profile list (as first supplied, or as the first
    call left the slice), succeeds and leaves the same document, section
    for section and key for key. *)
Theorem Merge_idempotent_when_rendering_repeats
    (first second : TemplateEngine) (opts : MergeOpts.t)
    (t1 : @Template first) (t2 : @Template second) :
  @Parse first (effectiveTemplate opts) = Ok t1 ->
  @Parse second (effectiveTemplate opts) = Ok t2 ->
  (forall p, In p (MergeOpts.Profiles opts) ->
     @Execute second t2 (normalized p) = @Execute first t1 (normalized p)) ->
  outErr (@Merge first opts) = None ->
  @Merge second
    (callWith opts (outConfig (@Merge first opts)) (MergeOpts.Profiles opts))
  = @Merge first opts
  /\ @Merge second
       (callWith opts (outConfig (@Merge first opts))
          (outProfiles (@Merge first opts)))
     = @Merge first opts.
Proof.
  intros Ht1 Ht2 Hsame Hok.
  destruct (@Merge_shape first opts Hok) as [t [ss [Ht [Hss Hcfg]]]].
  rewrite Ht1 in Ht. injection Ht as <-.
  pose proof (@Merge_of_shape first opts t1 ss Ht1 Hss) as Hfirst.
  assert (Hsorted : forall a b : SSOProfile,
             lessCombined a b = true -> lessCombined b a = false)
    by (intros a b; apply ltb_asym).
  assert (Htrans : forall a b c : SSOProfile,
             mayPrecede lessCombined a b -> mayPrecede lessCombined b c ->
             mayPrecede lessCombined a c)
    by (intros a b c; unfold mayPrecede, lessCombined; apply ltb_false_trans).
  assert (Hss2 : Forall2 (fun p s =>
                    @sectionFor second (MergeOpts.Prefix opts)
                      (MergeOpts.NoCredentialProcess opts) t2 p = Ok s)
                   (SliceStable lessCombined (MergeOpts.Profiles opts)) ss).
  { apply (Forall2_impl_In _ _ _ _ Hss). intros p s Hp Hps.
    unfold sectionFor in *. rewrite Hsame; [exact Hps|].
    eapply Permutation_in; [apply SliceStable_perm | exact Hp]. }
  assert (Hslice : outProfiles (@Merge first opts)
                   = SliceStable lessCombined (MergeOpts.Profiles opts))
    by now rewrite Hfirst.
  split.
  - rewrite (@Merge_of_shape second
               (callWith opts _ (MergeOpts.Profiles opts)) t2 ss Ht2 Hss2).
    simpl. rewrite Hcfg, prune_merged. now rewrite Hfirst.
  - assert (Hss2' : Forall2 (fun p s =>
                       @sectionFor second (MergeOpts.Prefix opts)
                         (MergeOpts.NoCredentialProcess opts) t2 p = Ok s)
                      (SliceStable lessCombined (outProfiles (@Merge first opts)))
                      ss).
    { rewrite Hslice, SliceStable_idempotent; auto. }
    rewrite (@Merge_of_shape second
               (callWith opts _ (outProfiles (@Merge first opts))) t2 ss Ht2 Hss2').
    simpl. rewrite Hcfg, prune_merged. rewrite Hfirst. simpl.
    f_equal. apply SliceStable_idempotent; auto.
Qed.

(** ** What the pruning pass removes *)

(** C3, amended. In a document whose sections have distinct names, the pruning pass
    removes a section only if the section has the key
    [common_fate_generated_from] and the start URL read off it is one of the
    prune URLs; when no section with the marker has a start URL among the
    prune URLs the pass changes nothing; and a section without the marker
    key stays, whatever its keys hold. *)
Theorem prune_removes_only_marked_sections
    (urls : list string) (cfg : ini.File) :
  NoDup (ini.names cfg) ->
  (forall sec, In sec cfg -> ~ In sec (prunePass urls cfg) ->
     ini.HasKey sec "common_fate_generated_from" = true
     /\ In (sectionStartURL sec) urls)
  /\ ((forall sec, In sec cfg ->
         ini.HasKey sec "common_fate_generated_from" = true ->
         ~ In (sectionStartURL sec) urls) ->
      prunePass urls cfg = cfg)
  /\ (forall sec, In sec cfg ->
        ini.HasKey sec "common_fate_generated_from" = false ->
        In sec (prunePass urls cfg)).
Proof.
  intros Hnd.
  assert (Hown : forall sec, In sec cfg -> In (ini.Name sec) (doomed urls cfg) ->
                 shouldPrune urls sec = true).
  { intros sec Hin Hd. apply in_doomed in Hd.
    destruct Hd as [s' [Hin' [Hp Hname]]].
    assert (s' = sec) by (eapply (NoDup_map_eq ini.Name); eauto).
    now subst. }
  split; [|split].
  - intros sec Hin Hgone. apply shouldPrune_true, Hown; [exact Hin|].
    apply nameNotIn_false.
    destruct (nameNotIn (doomed urls cfg) sec) eqn:E; [|reflexivity].
    exfalso. apply Hgone. rewrite prunePass_spec. apply filter_In. now split.
  - intros Hnone. rewrite prunePass_spec. apply filter_all.
    intros s Hs. apply nameNotIn_true. rewrite in_doomed.
    intros [s' [Hin' [Hp _]]]. apply shouldPrune_true in Hp.
    destruct Hp as [Hk Hu]. exact (Hnone s' Hin' Hk Hu).
  - intros sec Hin Hnokey. rewrite prunePass_spec. apply filter_In.
    split; [exact Hin|]. apply nameNotIn_true. intros Hd.
    apply (Hown sec Hin) in Hd. apply shouldPrune_true in Hd.
    destruct Hd as [Hk _]. congruence.
Qed.

(** C10. The pruning pass takes the presence of the key
    [common_fate_generated_from] as the mark of a generated section and does
    not look at its value: a section with that key, whatever value [v] it
    has, whose [granted_sso_start_url] (or, when it has none, whose
    [sso_start_url]) is one of the prune URLs is gone after the pass, and no
    section of its name is left. *)
Theorem prune_removes_every_marked_section
    (urls : list string) (cfg : ini.File) (sec : ini.Section_) (v u : string) :
  In sec cfg ->
  ini.lookup "common_fate_generated_from" (ini.Keys sec) = Some v ->
  (ini.lookup "granted_sso_start_url" (ini.Keys sec) = Some u
   \/ (ini.lookup "granted_sso_start_url" (ini.Keys sec) = None
       /\ ini.lookup "sso_start_url" (ini.Keys sec) = Some u)) ->
  In u urls ->
  ~ In sec (prunePass urls cfg)
  /\ ~ In (ini.Name sec) (ini.names (prunePass urls cfg)).
Proof.
  intros Hin Hmark Hurl Hu.
  assert (Hp : shouldPrune urls sec = true).
  { apply shouldPrune_true. split.
    - unfold ini.HasKey. now rewrite Hmark.
    - unfold sectionStartURL, ini.HasKey, ini.KeyString.
      destruct Hurl as [Hg|[Hg Hs]].
      + now rewrite Hg.
      + now rewrite Hg, Hs. }
  assert (Hname : ~ In (ini.Name sec) (ini.names (prunePass urls cfg))).
  { unfold ini.names. rewrite in_map_iff. intros [s' [Hn Hs']].
    rewrite prunePass_spec in Hs'. apply filter_In in Hs'.
    destruct Hs' as [_ Hkeep]. apply nameNotIn_true in Hkeep. apply Hkeep.
    apply in_doomed. exists sec. now rewrite Hn. }
  split; [|exact Hname].
  intros Hstill. apply Hname. now apply in_map.
Qed.

(** ** The generator *)

Lemma runTask_calls finished : forall st,
  calls (fold_left runTask finished st) = calls st + List.length finished.
Proof.
  induction finished as [|s l IH]; intros st; simpl.
  - lia.
  - rewrite IH. unfold runTask. destruct (GetProfiles s); simpl; lia.
Qed.

Lemma runTask_keeps_error finished : forall st e,
  firstErr st = Some e -> firstErr (fold_left runTask finished st) = Some e.
Proof.
  induction finished as [|s l IH]; intros st e Hst; simpl.
  - exact Hst.
  - apply IH. unfold runTask. destruct (GetProfiles s); simpl; now rewrite Hst.
Qed.

Lemma runTask_finds_error finished : forall st s e,
  firstErr st = None -> In s finished -> GetProfiles s = Err e ->
  exists s' e',
    In s' finished /\ GetProfiles s' = Err e'
    /\ firstErr (fold_left runTask finished st) = Some e'.
Proof.
  induction finished as [|x l IH]; intros st s e Hst Hin Herr; simpl.
  - contradiction.
  - destruct (GetProfiles x) as [got|e0] eqn:Hx.
    + destruct Hin as [->|Hin]; [congruence|].
      destruct (IH (runTask st x) s e) as [s' [e' [Hin' [Hs' Hf]]]]; auto.
      { unfold runTask. now rewrite Hx. }
      exists s', e'. auto.
    + exists x, e0. split; [now left|]. split; [exact Hx|].
      apply runTask_keeps_error. unfold runTask. now rewrite Hx, Hst.
Qed.

Section GenerateTheorems.
Context {engine : TemplateEngine}.

Lemma GenerateIn_rejected finished g :
  prefixRejected g = true \/ templateRejected g = true ->
  genConfig (GenerateIn finished g) = Generator.Config g
  /\ genErr (GenerateIn finished g) <> None
  /\ genCalls (GenerateIn finished g) = 0.
Proof.
  unfold prefixRejected, templateRejected, templateOf, GenerateIn.
  destruct (ContainsAny _ _); [intros _; simpl; repeat split; discriminate|].
  intros [H|H]; [discriminate|]. rewrite H. simpl. repeat split; discriminate.
Qed.

Lemma GenerateIn_checked finished g :
  prefixRejected g = false -> templateRejected g = false ->
  GenerateIn finished g
  = let st := fold_left runTask finished
                {| firstErr := None; collected := []; calls := 0 |} in
    match firstErr st with
    | Some e =>
        {| genConfig := Generator.Config g; genErr := Some e;
           genCalls := calls st |}
    | None =>
        let out :=
          Merge
            {| MergeOpts.Config := Generator.Config g;
               MergeOpts.SectionNameTemplate := templateOf g;
               MergeOpts.Profiles := collected st;
               MergeOpts.NoCredentialProcess := Generator.NoCredentialProcess g;
               MergeOpts.Prefix := Generator.Prefix g;
               MergeOpts.PruneStartURLs := Generator.PruneStartURLs g |} in
        {| genConfig := outConfig out; genErr := outErr out;
           genCalls := calls st |}
    end.
Proof.
  unfold prefixRejected, templateRejected, templateOf, GenerateIn.
  intros -> ->. reflexivity.
Qed.

(** C4. When a source fails, every run of [Generate] returns an error and
    leaves the document as it was; and when the prefix and the template
    pass the checks, so that the sources are queried, each of them once,
    the error returned is the error of one of the failing sources. *)
Theorem Generate_source_error (g : Generator.t) (out : GenerateOutcome) :
  Generate g out ->
  (exists s e, In s (Generator.Sources g) /\ GetProfiles s = Err e) ->
  genConfig out = Generator.Config g
  /\ genErr out <> None
  /\ (prefixRejected g = false -> templateRejected g = false ->
      genCalls out = List.length (Generator.Sources g)
      /\ exists s e,
           In s (Generator.Sources g) /\ GetProfiles s = Err e
           /\ genErr out = Some e).
Proof.
  intros [finished [Hperm ->]] [s [e [Hin Herr]]].
  assert (Hfail : exists s' e',
             In s' finished /\ GetProfiles s' = Err e'
             /\ firstErr (fold_left runTask finished
                            {| firstErr := None; collected := []; calls := 0 |})
                = Some e').
  { apply (runTask_finds_error finished _ s e); [reflexivity| |exact Herr].
    eapply Permutation_in; [apply Permutation_sym, Hperm | exact Hin]. }
  destruct Hfail as [s' [e' [Hin' [Herr' Hfirst]]]].
  destruct (prefixRejected g) eqn:Hp.
  { destruct (GenerateIn_rejected finished g (or_introl Hp)) as [Hc [He _]].
    split; [exact Hc|]. split; [exact He|]. discriminate. }
  destruct (templateRejected g) eqn:Ht.
  { destruct (GenerateIn_rejected finished g (or_intror Ht)) as [Hc [He _]].
    split; [exact Hc|]. split; [exact He|]. discriminate. }
  rewrite (GenerateIn_checked finished g Hp Ht). cbv zeta. rewrite Hfirst.
  simpl. split; [reflexivity|]. split; [discriminate|]. intros _ _. split.
  - rewrite runTask_calls. simpl. now apply Permutation_length.
  - exists s', e'. split; [|split; [exact Herr'|reflexivity]].
    eapply Permutation_in; [exact Hperm | exact Hin'].
Qed.

(** A template that the checks reject stops [Generate] before any source is
    queried. *)
Lemma Generate_rejects_before_sources (g : Generator.t) (out : GenerateOutcome) :
  Generate g out ->
  prefixRejected g = true \/ templateRejected g = true ->
  genConfig out = Generator.Config g /\ genErr out <> None /\ genCalls out = 0.
Proof.
  intros [finished [_ ->]] H. now apply GenerateIn_rejected.
Qed.

End GenerateTheorems.

(** ** The test tables *)

Example defaultTempl_parsed :
  fieldTemplate.parse DefaultProfileNameTemplate = Ok defaultTempl.
Proof. reflexivity. Qed.

(** TestMerge, case [ok]. *)
Example Merge_test_ok :
  @Merge fieldTemplate.engine (optsFor exampleConfig [testingDevRole] false [])
  = {| outConfig :=
         exampleConfig
         ++ [ {| ini.Name := "profile testing/DevRole";
                 ini.Keys :=
                   [ ("granted_sso_start_url", "https://example.com");
                     ("granted_sso_region", "ap-southeast-2");
                     ("granted_sso_account_id", "123456789012");
                     ("granted_sso_role_name", "DevRole");
                     ("common_fate_generated_from", "aws-sso");
                     ("credential_process",
                      "granted credential-process --profile testing/DevRole --url https://commonfate.example.com") ] |} ];
       outProfiles := [testingDevRole];
       outErr := None |}.
Proof. reflexivity. Qed.

(** TestMerge, case [ok with no credential process]. *)
Example Merge_test_no_credential_process :
  outConfig
    (@Merge fieldTemplate.engine (optsFor exampleConfig [testingDevRole] true []))
  = exampleConfig
    ++ [ {| ini.Name := "profile testing/DevRole";
            ini.Keys :=
              [ ("sso_start_url", "https://example.com");
                ("sso_region", "ap-southeast-2");
                ("sso_account_id", "123456789012");
                ("common_fate_generated_from", "aws-sso");
                ("sso_role_name", "DevRole") ] |} ].
Proof. reflexivity. Qed.

(** TestMerge, case [profile names (AccountName/RoleName) sorted
    alphabetically]. *)
Example Merge_test_sorted :
  ini.names
    (outConfig
       (@Merge fieldTemplate.engine
          (optsFor []
             [ account "account1" "DevRoleTwo"; account "account1" "DevRoleOne";
               account "account2" "DevRoleOne" ]
             false [])))
  = [ "profile account1/DevRoleOne"; "profile account1/DevRoleTwo";
      "profile account2/DevRoleOne" ].
Proof. reflexivity. Qed.

(** TestGenerator_Generate, the two [invalid template] cases and the
    [valid template] case. *)
Example Generate_test_templates :
  templateRejected (generatorFor [workingSource] "{{ .AccountName }}. ") = true
  /\ templateRejected (generatorFor [workingSource] "{{ .AccountName }}.;") = true
  /\ templateRejected (generatorFor [workingSource] "{{ .AccountName }}.hello")
     = false.
Proof. repeat split; reflexivity. Qed.

(** ** Instances on concrete inputs *)

(** C2, as stated, fails: by the pair (display name, role name) the account
    [prod] comes before [prod-eu], yet the section of [prod-eu] is emitted
    first, because the byte [-] is below the byte [/] of the combined
    name. *)
Lemma Merge_pair_order_counterexample :
  pairLess (account "prod" "Admin") (account "prod-eu" "Admin") = true
  /\ ini.names
       (outConfig
          (@Merge fieldTemplate.engine
             (optsFor [] [account "prod" "Admin"; account "prod-eu" "Admin"]
                false [])))
     = ["profile prod-eu/Admin"; "profile prod/Admin"].
Proof. split; reflexivity. Qed.

(** C1, as stated, fails: the template reads the environment variable
    [STAGE]; the first call runs with [STAGE] set to [dev], the second with
    [prod], both succeed, and the second leaves a section more than the
    first. *)
Lemma Merge_not_idempotent_when_rendering_changes :
  outErr (@Merge (envEngine "dev") stageOpts) = None
  /\ outErr
       (@Merge (envEngine "prod")
          (callWith stageOpts (outConfig (@Merge (envEngine "dev") stageOpts))
             (MergeOpts.Profiles stageOpts)))
     = None
  /\ ini.names (outConfig (@Merge (envEngine "dev") stageOpts))
     = ["DEFAULT"; "profile example"; "profile dev/DevRole"]
  /\ ini.names
       (outConfig
          (@Merge (envEngine "prod")
             (callWith stageOpts (outConfig (@Merge (envEngine "dev") stageOpts))
                (MergeOpts.Profiles stageOpts))))
     = ["DEFAULT"; "profile example"; "profile dev/DevRole";
        "profile prod/DevRole"]
  /\ outConfig
       (@Merge (envEngine "prod")
          (callWith stageOpts (outConfig (@Merge (envEngine "dev") stageOpts))
             (MergeOpts.Profiles stageOpts)))
     <> outConfig (@Merge (envEngine "dev") stageOpts).
Proof. repeat split; try reflexivity. discriminate. Qed.

Lemma Merge_idempotent_when_rendering_repeats_witness :
  let opts := optsFor exampleConfig
                [account "staging" "Admin"; account "prod" "Admin"] false
                ["https://example.awsapps.com/start"] in
  outErr (@Merge fieldTemplate.engine opts) = None
  /\ @Merge regionRequired
       (callWith opts (outConfig (@Merge fieldTemplate.engine opts))
          (MergeOpts.Profiles opts))
     = @Merge fieldTemplate.engine opts
  /\ @Merge regionRequired
       (callWith opts (outConfig (@Merge fieldTemplate.engine opts))
          (outProfiles (@Merge fieldTemplate.engine opts)))
     = @Merge fieldTemplate.engine opts.
Proof.
  intros opts. split; [reflexivity|].
  apply (Merge_idempotent_when_rendering_repeats fieldTemplate.engine
           regionRequired opts defaultTempl tt).
  - reflexivity.
  - reflexivity.
  - intros p [<-|[<-|[]]]; reflexivity.
  - reflexivity.
Defined.

Lemma Merge_sections_in_combined_name_order_witness :
  outErr (@Merge fieldTemplate.engine unsortedOpts) = None
  /\ ini.names (outConfig (@Merge fieldTemplate.engine unsortedOpts))
     = [ "DEFAULT"; "profile example"; "profile prod-eu/Admin";
         "profile prod/Admin"; "profile staging/Admin" ]
  /\ exists kept writers written,
       outConfig (@Merge fieldTemplate.engine unsortedOpts) = kept ++ written
       /\ incl kept (MergeOpts.Config unsortedOpts)
       /\ incl writers (MergeOpts.Profiles unsortedOpts)
       /\ StronglySorted
            (fun p q => String.ltb (combinedName q) (combinedName p) = false)
            writers
       /\ Forall2 (fun p s =>
                     exists t,
                       @Parse fieldTemplate.engine (effectiveTemplate unsortedOpts)
                       = Ok t
                       /\ @sectionFor fieldTemplate.engine
                            (MergeOpts.Prefix unsortedOpts)
                            (MergeOpts.NoCredentialProcess unsortedOpts) t p
                          = Ok s)
                  writers written
       /\ (forall s, In s kept -> ~ In (ini.Name s) (ini.names written))
       /\ (forall p, In p (MergeOpts.Profiles unsortedOpts) ->
             exists t s,
               @Parse fieldTemplate.engine (effectiveTemplate unsortedOpts) = Ok t
               /\ @sectionFor fieldTemplate.engine
                    (MergeOpts.Prefix unsortedOpts)
                    (MergeOpts.NoCredentialProcess unsortedOpts) t p = Ok s
               /\ In (ini.Name s) (ini.names written)).
Proof.
  assert (Hok : outErr (@Merge fieldTemplate.engine unsortedOpts) = None)
    by reflexivity.
  split; [exact Hok|]. split; [reflexivity|].
  destruct (@Merge_sections_in_combined_name_order fieldTemplate.engine
              unsortedOpts)
    as [kept [writers [written [H1 [H2 [H3 [H4 [H5 [H6 H7]]]]]]]]].
  exists kept, writers, written.
  repeat (split; [assumption|]). exact (H7 Hok).
Defined.

(** C3, as stated, fails on a document that holds two sections of one
    name: the pruning pass deletes by name, so the section without the
    marker goes with its generated namesake. *)
Lemma prune_removes_unmarked_namesake :
  let mine := {| ini.Name := "profile shared";
                 ini.Keys := [("region", "eu-west-1")] |} in
  In mine namesakeConfig
  /\ ini.HasKey mine "common_fate_generated_from" = false
  /\ prunePass ["https://example.com"] namesakeConfig = []
  /\ ~ In mine (prunePass ["https://example.com"] namesakeConfig).
Proof.
  intros mine. split; [simpl; tauto|]. split; [reflexivity|].
  split; [reflexivity|]. intros H. exact H.
Qed.

Lemma prune_removes_only_marked_sections_witness :
  NoDup (ini.names mixedConfig)
  /\ (forall sec, In sec mixedConfig ->
        ~ In sec (prunePass ["https://example.com"] mixedConfig) ->
        ini.HasKey sec "common_fate_generated_from" = true
        /\ In (sectionStartURL sec) ["https://example.com"])
  /\ prunePass ["https://elsewhere.example.com"] mixedConfig = mixedConfig
  /\ (forall sec, In sec mixedConfig ->
        ini.HasKey sec "common_fate_generated_from" = false ->
        In sec (prunePass ["https://example.com"] mixedConfig)).
Proof.
  assert (Hnd : NoDup (ini.names mixedConfig)) by (simpl; distinct_strings).
  split; [exact Hnd|].
  destruct (prune_removes_only_marked_sections ["https://example.com"]
              mixedConfig Hnd) as [Honly [_ Hstay]].
  destruct (prune_removes_only_marked_sections ["https://elsewhere.example.com"]
              mixedConfig Hnd) as [_ [Hnoop _]].
  split; [exact Honly|]. split; [|exact Hstay].
  apply Hnoop. intros sec Hin Hmark Hurl. simpl in Hin, Hurl.
  destruct Hin as [<-|[<-|[<-|[]]]]; try discriminate Hmark.
  destruct Hurl as [Hurl|[]]. discriminate Hurl.
Defined.

Lemma prune_removes_every_marked_section_witness :
  let sec := {| ini.Name := "profile old/Role";
                ini.Keys := [("granted_sso_start_url", "https://example.com");
                             ("common_fate_generated_from", "")] |} in
  In sec mixedConfig
  /\ ~ In sec (prunePass ["https://example.com"] mixedConfig)
  /\ ~ In (ini.Name sec)
         (ini.names (prunePass ["https://example.com"] mixedConfig)).
Proof.
  intros sec.
  assert (Hin : In sec mixedConfig) by (simpl; tauto).
  split; [exact Hin|].
  apply (prune_removes_every_marked_section ["https://example.com"] mixedConfig
           sec "" "https://example.com" Hin).
  - reflexivity.
  - left. reflexivity.
  - simpl. tauto.
Defined.

Lemma Generate_source_error_witness :
  let g := generatorFor [workingSource; failingSource] "" in
  let out := @GenerateIn fieldTemplate.engine [failingSource; workingSource] g in
  @Generate fieldTemplate.engine g out
  /\ prefixRejected g = false
  /\ templateRejected g = false
  /\ genConfig out = Generator.Config g
  /\ genErr out <> None
  /\ genCalls out = List.length (Generator.Sources g)
  /\ exists s e,
       In s (Generator.Sources g) /\ GetProfiles s = Err e
       /\ genErr out = Some e.
Proof.
  intros g out.
  assert (Hrun : @Generate fieldTemplate.engine g out).
  { exists [failingSource; workingSource]. split; [apply perm_swap|reflexivity]. }
  assert (Hfails : exists s e,
             In s (Generator.Sources g) /\ GetProfiles s = Err e).
  { exists failingSource, "access denied". split; [simpl; tauto|reflexivity]. }
  destruct (@Generate_source_error fieldTemplate.engine g out Hrun Hfails)
    as [Hcfg [Herr Hfrom]].
  destruct (Hfrom eq_refl eq_refl) as [Hcalls Hsource].
  repeat (split; [first [exact Hrun | reflexivity | assumption]|]).
  exact Hsource.
Defined.

Lemma Merge_parse_failure_leaves_document_witness :
  let opts :=
    {| MergeOpts.Config := mixedConfig;
       MergeOpts.Prefix := "";
       MergeOpts.Profiles := [testingDevRole];
       MergeOpts.SectionNameTemplate := "{{ .AccountName";
       MergeOpts.NoCredentialProcess := false;
       MergeOpts.PruneStartURLs := ["https://example.com"] |} in
  @Parse fieldTemplate.engine (effectiveTemplate opts)
  = Err "template: unclosed action"
  /\ outConfig (@Merge fieldTemplate.engine opts) = mixedConfig
  /\ outErr (@Merge fieldTemplate.engine opts) = Some "template: unclosed action".
Proof.
  intros opts. split; [reflexivity|].
  apply (@Merge_parse_failure_leaves_document fieldTemplate.engine opts).
  reflexivity.
Defined.



Lemma written_section_keys_in_fixed_order_witness :
  @Execute fieldTemplate.engine defaultTempl (normalized (account "my prod" "DevRole"))
  = Ok "my-prod/DevRole"
  /\ exists s,
       @insertProfile fieldTemplate.engine "" false defaultTempl
         (account "my prod" "DevRole") exampleConfig
       = (ini.DeleteSection exampleConfig (ini.Name s) ++ [s], None)
       /\ ini.Name s = "profile " +++ "" +++ "my-prod/DevRole"
       /\ map fst (ini.Keys s)
          = (if false then
               [ "sso_start_url"; "sso_region"; "sso_account_id";
                 "common_fate_generated_from"; "sso_role_name" ]
             else
               [ "granted_sso_start_url"; "granted_sso_region";
                 "granted_sso_account_id"; "granted_sso_role_name";
                 "common_fate_generated_from"; "credential_process" ])
            ++ (if String.eqb (Region (account "my prod" "DevRole")) ""
                then [] else ["region"]).
Proof.
  split; [reflexivity|].
  apply (@written_section_keys_in_fixed_order fieldTemplate.engine "" false
           defaultTempl (account "my prod" "DevRole") exampleConfig
           "my-prod/DevRole").
  reflexivity.
Defined.

Lemma credential_process_value_witness :
  @Execute fieldTemplate.engine defaultTempl (normalized testingDevRole)
  = Ok "testing/DevRole"
  /\ CommonFateURL testingDevRole <> ""
  /\ exists s,
       @insertProfile fieldTemplate.engine "" false defaultTempl testingDevRole
         exampleConfig
       = (ini.DeleteSection exampleConfig (ini.Name s) ++ [s], None)
       /\ ini.lookup "credential_process" (ini.Keys s)
          = Some "granted credential-process --profile testing/DevRole --url https://commonfate.example.com".
Proof.
  split; [reflexivity|].
  assert (Hurl : CommonFateURL testingDevRole <> "") by discriminate.
  split; [exact Hurl|].
  destruct (@credential_process_value fieldTemplate.engine "" defaultTempl
              testingDevRole exampleConfig "testing/DevRole" eq_refl)
    as [s [Hput [_ [_ Hvalue]]]].
  exists s. split; [exact Hput | exact (Hvalue Hurl)].
Defined.

(** ** The template check *)

Lemma orElse_left {A : Type} (a b : option A) :
  a <> None -> regexp.orElse a b <> None.
Proof. destruct a; simpl; congruence. Qed.

Lemma orElse_right {A : Type} (a b : option A) :
  b <> None -> regexp.orElse a b <> None.
Proof. destruct a; simpl; congruence. Qed.

Lemma search_here r bot s :
  regexp.matchHere r bot s <> None -> regexp.search r bot s = true.
Proof.
  intros H. destruct s; simpl; destruct (regexp.matchHere r bot _); congruence.
Qed.

Lemma search_append r pre : forall bot s,
  (forall b, regexp.search r b s = true) ->
  regexp.search r bot (pre +++ s) = true.
Proof.
  induction pre as [|a pre IH]; intros bot s Hs; simpl.
  - apply Hs.
  - destruct (regexp.matchHere r bot _); [reflexivity|]. now apply IH.
Qed.

(** An illegal character that opens the text is found. *)
Lemma illegal_at_start c post :
  illegalOrSpace c = true ->
  regexp.matchHere profileSectionIllegalCharsRegex true (String c post) <> None.
Proof.
  intros Hc. unfold regexp.matchHere, profileSectionIllegalCharsRegex.
  cbn [regexp.run]. apply orElse_left, orElse_left. rewrite Hc. discriminate.
Qed.

(** An illegal character that follows a character other than the opening
    brace is found. *)
Lemma illegal_after_other bot d c post :
  d <> "{"%char -> illegalOrSpace c = true ->
  regexp.matchHere profileSectionIllegalCharsRegex bot
    (String d (String c post)) <> None.
Proof.
  intros Hd Hc. unfold regexp.matchHere, profileSectionIllegalCharsRegex.
  cbn [regexp.run]. apply orElse_left, orElse_right.
  apply Ascii.eqb_neq in Hd. rewrite Hd, Hc. discriminate.
Qed.

(** What the check does catch: an illegal character left in the template
    after the substitution regions are removed, unless an opening brace
    stands right before it, makes [Generate] fail before it queries any
    source, with the document untouched. *)
Lemma Generate_rejects_illegal_character
    {engine : TemplateEngine} (g : Generator.t) (out : GenerateOutcome)
    (pre post : string) (c : ascii) :
  Generate g out ->
  templateOf g <> DefaultProfileNameTemplate ->
  regexp.ReplaceAllEmpty matchGoTemplateSection (templateOf g)
  = pre +++ String c post ->
  illegalOrSpace c = true ->
  (pre = "" \/ exists pre' d, pre = pre' +++ String d "" /\ d <> "{"%char) ->
  genConfig out = Generator.Config g /\ genErr out <> None /\ genCalls out = 0.
Proof.
  intros Hrun Hnd Hclean Hc Hpre.
  apply (Generate_rejects_before_sources g out Hrun).
  destruct (prefixRejected g); [now left|right].
  unfold templateRejected. apply String.eqb_neq in Hnd. rewrite Hnd, Hclean.
  simpl. unfold regexp.MatchString.
  destruct Hpre as [->|[pre' [d [-> Hd]]]].
  - apply search_here. now apply illegal_at_start.
  - rewrite append_assoc. simpl. apply search_append.
    intros b. apply search_here. now apply illegal_after_other.
Qed.

(** C5 on the template [a{ b]: no substitution region is removed, the text
    holds a space, and the check lets it pass, so the source is queried and
    the section [profile a{ b] is written. *)
Theorem Generate_accepts_space_after_brace :
  let g := generatorFor [workingSource] "a{ b" in
  regexp.ReplaceAllEmpty matchGoTemplateSection (templateOf g) = "a{ b"
  /\ ContainsAny "a{ b" " " = true
  /\ templateRejected g = false
  /\ (forall (engine : TemplateEngine) (out : GenerateOutcome),
        Generate g out -> genCalls out = 1)
  /\ (forall out : GenerateOutcome,
        @Generate fieldTemplate.engine g out ->
        genErr out = None
        /\ ini.names (genConfig out)
           = ["DEFAULT"; "profile example"; "profile a{ b"]).
Proof.
  intros g. split; [reflexivity|]. split; [reflexivity|].
  split; [reflexivity|]. split.
  - intros engine out [finished [Hperm ->]].
    apply Permutation_sym, Permutation_length_1_inv in Hperm. subst finished.
    rewrite GenerateIn_checked by reflexivity. reflexivity.
  - intros out [finished [Hperm ->]].
    apply Permutation_sym, Permutation_length_1_inv in Hperm. subst finished.
    split; reflexivity.
Qed.

(** * Further properties of the code *)

(** ** normalizeAccountName *)

Lemma replaceSpaces_bytes s c :
  In c (bytes (replaceSpaces s)) ->
  c <> " "%char /\ (In c (bytes s) \/ (c = "-"%char /\ In " "%char (bytes s))).
Proof.
  unfold bytes. induction s as [|a s IH]; simpl.
  - contradiction.
  - intros [Hc|Hc].
    + destruct (Ascii.eqb a " ") eqn:E.
      * apply Ascii.eqb_eq in E. subst. split; [discriminate|].
        right. split; [reflexivity | now left].
      * apply Ascii.eqb_neq in E. subst. split; [exact E | left; now left].
    + destruct (IH Hc) as [Hn [Hin|[Hd Hin]]]; split; auto.
Qed.

(** X1. The normalized account name is the given name with every space
    byte turned into a hyphen and every other byte kept in its place: it
    has the length of the given name and holds no space, and a name without
    a space is returned as it is. *)
Theorem normalizeAccountName_removes_spaces (accountName : string) :
  bytes (normalizeAccountName accountName)
  = map (fun c => if Ascii.eqb c " " then "-"%char else c) (bytes accountName)
  /\ String.length (normalizeAccountName accountName) = String.length accountName
  /\ ~ In " "%char (bytes (normalizeAccountName accountName))
  /\ (~ In " "%char (bytes accountName) ->
      normalizeAccountName accountName = accountName).
Proof.
  unfold normalizeAccountName. split; [|split; [|split]].
  - unfold bytes. induction accountName as [|a s IH]; simpl;
      [reflexivity | now rewrite IH].
  - induction accountName as [|a s IH]; simpl; [reflexivity | now rewrite IH].
  - intros H. apply replaceSpaces_bytes in H. now destruct H.
  - unfold bytes. induction accountName as [|a s IH]; simpl; intros Hno.
    + reflexivity.
    + destruct (Ascii.eqb a " ") eqn:E.
      * apply Ascii.eqb_eq in E. exfalso. apply Hno. now left.
      * f_equal. apply IH. intros H. apply Hno. now right.
Qed.

Lemma normalizeAccountName_removes_spaces_witness :
  ~ In " "%char (bytes "prod-eu")
  /\ normalizeAccountName "prod-eu" = "prod-eu"
  /\ normalizeAccountName "my prod account" = "my-prod-account".
Proof.
  assert (Hno : ~ In " "%char (bytes "prod-eu")).
  { simpl. intuition discriminate. }
  split; [exact Hno|]. split; [|reflexivity].
  exact (proj2 (proj2 (proj2 (normalizeAccountName_removes_spaces "prod-eu")))
           Hno).
Defined.

(** ** The pruning pass *)

Lemma filter_dropsFrom {A : Type} (p : A -> bool) (l : list A) :
  dropsFrom (filter p l) l.
Proof.
  induction l as [|a l IH]; simpl.
  - constructor.
  - destruct (p a); now constructor.
Qed.

Lemma dropsFrom_trans {A : Type} (l1 l2 l3 : list A) :
  dropsFrom l1 l2 -> dropsFrom l2 l3 -> dropsFrom l1 l3.
Proof.
  intros H12 H23. revert l1 H12.
  induction H23 as [|x l2 l3 _ IH|x l2 l3 _ IH]; intros l1 H12.
  - exact H12.
  - constructor. now apply IH.
  - inversion H12; subst.
    + apply drops_skip. now apply IH.
    + apply drops_keep. now apply IH.
Qed.

Lemma dropsFrom_refl {A : Type} (l : list A) : dropsFrom l l.
Proof. induction l as [|a l IH]; [constructor | now apply drops_keep]. Qed.

Lemma prunePass_nothing cfg : prunePass [] cfg = cfg.
Proof.
  rewrite prunePass_spec. apply filter_all. intros s _.
  apply nameNotIn_true. rewrite in_doomed. intros [s' [_ [Hp _]]].
  unfold shouldPrune in Hp. simpl in Hp. now rewrite andb_false_r in Hp.
Qed.

Lemma prunePass_twice urls cfg :
  prunePass urls (prunePass urls cfg) = prunePass urls cfg.
Proof.
  rewrite (prunePass_spec urls (prunePass urls cfg)). apply filter_all.
  intros s _. apply nameNotIn_true. rewrite in_doomed.
  intros [s' [Hin [Hp _]]]. apply prunePass_survivor in Hin.
  destruct Hin as [_ Hno]. congruence.
Qed.

(** X2. The pruning pass only takes sections away: what it leaves is the
    document with some sections dropped, the others in their order.
    Without prune URLs it leaves every section, and a second pass with the
    same URLs finds nothing more to remove. *)
Theorem prunePass_only_drops (urls : list string) (cfg : ini.File) :
  dropsFrom (prunePass urls cfg) cfg
  /\ prunePass [] cfg = cfg
  /\ prunePass urls (prunePass urls cfg) = prunePass urls cfg.
Proof.
  split; [|split].
  - rewrite prunePass_spec. apply filter_dropsFrom.
  - apply prunePass_nothing.
  - apply prunePass_twice.
Qed.

(** ** Sections the insertion pass does not touch *)

Lemma NoDup_names_filter p (f : ini.File) :
  NoDup (ini.names f) -> NoDup (ini.names (filter p f)).
Proof.
  unfold ini.names. induction f as [|s f IH]; simpl; intros Hnd.
  - constructor.
  - inversion Hnd as [|? ? Hnotin Hnd']; subst.
    destruct (p s); simpl; [|now apply IH].
    constructor; [|now apply IH].
    intros Hin. apply Hnotin. apply in_map_iff in Hin.
    destruct Hin as [x [Hx Hin]]. apply filter_In in Hin.
    rewrite <- Hx. apply in_map. tauto.
Qed.

Lemma put_names_distinct f s :
  NoDup (ini.names f) -> NoDup (ini.names (put f s)).
Proof.
  intros Hnd. unfold put, ini.names. rewrite map_app. simpl.
  apply NoDup_app_remove_l with (l := []). simpl.
  apply Permutation_NoDup with (l := ini.Name s :: map ini.Name (ini.DeleteSection f (ini.Name s))).
  - apply Permutation_cons_append.
  - constructor.
    + intros Hin. apply in_map_iff in Hin. destruct Hin as [x [Hx Hin]].
      unfold ini.DeleteSection in Hin. apply filter_In in Hin.
      destruct Hin as [_ Hne]. rewrite Hx, String.eqb_refl in Hne. discriminate.
    + apply (NoDup_names_filter _ f Hnd).
Qed.

Section InsertionFacts.
Context {engine : TemplateEngine}.

Lemma insertPass_names_distinct prefix flag t ps : forall cfg,
  NoDup (ini.names cfg) ->
  NoDup (ini.names (fst (insertPass prefix flag t ps cfg))).
Proof.
  induction ps as [|p ps IH]; intros cfg Hnd; simpl.
  - exact Hnd.
  - rewrite insertProfile_spec.
    destruct (sectionFor prefix flag t p) as [s|e]; simpl.
    + apply IH. now apply put_names_distinct.
    + exact Hnd.
Qed.

(** X3. [Merge] keeps the names of the sections distinct: from a document
    in which no two sections share a name it leaves, whether it succeeds or
    stops with an error, a document in which no two sections share a
    name. *)
Theorem Merge_keeps_names_distinct (opts : MergeOpts.t) :
  NoDup (ini.names (MergeOpts.Config opts)) ->
  NoDup (ini.names (outConfig (Merge opts))).
Proof.
  intros Hnd. unfold Merge. destruct (Parse _) as [t|e]; [|exact Hnd].
  pose proof (insertPass_names_distinct (MergeOpts.Prefix opts)
                (MergeOpts.NoCredentialProcess opts) t
                (SliceStable lessCombined (MergeOpts.Profiles opts))
                (prunePass (MergeOpts.PruneStartURLs opts) (MergeOpts.Config opts)))
    as Hpass.
  destruct (insertPass _ _ t _ _) as [cfg' err]. simpl in *.
  apply Hpass. rewrite prunePass_spec. now apply NoDup_names_filter.
Qed.

Lemma insertPass_keeps prefix flag t ps (s : ini.Section_) : forall cfg,
  In s cfg ->
  (forall p sec, In p ps -> sectionFor prefix flag t p = Ok sec ->
                 ini.Name sec <> ini.Name s) ->
  In s (fst (insertPass prefix flag t ps cfg)).
Proof.
  induction ps as [|p ps IH]; intros cfg Hin Hfree; simpl.
  - exact Hin.
  - rewrite insertProfile_spec.
    destruct (sectionFor prefix flag t p) as [sec|e] eqn:Hsec; simpl.
    + apply IH.
      * unfold put. apply in_or_app. left. unfold ini.DeleteSection.
        apply filter_In. split; [exact Hin|].
        apply negb_true_iff, String.eqb_neq. intros Heq.
        apply (Hfree p sec (or_introl eq_refl) Hsec). now symmetry.
      * intros q sq Hq. apply Hfree. now right.
    + exact Hin.
Qed.

(** X4. A section of the input that has no origin marker, or whose start
    URL is not a prune URL, and whose name no profile renders to, is in the
    document [Merge] leaves, on success and on error alike (names of the
    input distinct, template parsed). *)
Theorem Merge_keeps_untouched_section
    (opts : MergeOpts.t) (t : Template) (s : ini.Section_) :
  NoDup (ini.names (MergeOpts.Config opts)) ->
  Parse (effectiveTemplate opts) = Ok t ->
  In s (MergeOpts.Config opts) ->
  ini.HasKey s "common_fate_generated_from" = false
  \/ ~ In (sectionStartURL s) (MergeOpts.PruneStartURLs opts) ->
  (forall p rendered,
     In p (MergeOpts.Profiles opts) ->
     Execute t (normalized p) = Ok rendered ->
     ini.Name s <> "profile " +++ MergeOpts.Prefix opts +++ rendered) ->
  In s (outConfig (Merge opts)).
Proof.
  intros Hnd Ht Hin Hkeep Hfree. unfold Merge. fold (effectiveTemplate opts).
  rewrite Ht.
  pose proof (insertPass_keeps (MergeOpts.Prefix opts)
                (MergeOpts.NoCredentialProcess opts) t
                (SliceStable lessCombined (MergeOpts.Profiles opts)) s
                (prunePass (MergeOpts.PruneStartURLs opts) (MergeOpts.Config opts)))
    as Hpass.
  destruct (insertPass _ _ t _ _) as [cfg' err]. simpl in *. apply Hpass.
  - rewrite prunePass_spec. apply filter_In. split; [exact Hin|].
    apply nameNotIn_true. rewrite in_doomed. intros [s' [Hin' [Hp Hname]]].
    assert (s' = s) by (eapply (NoDup_map_eq ini.Name); eauto). subst s'.
    apply shouldPrune_true in Hp. destruct Hp as [Hk Hu].
    destruct Hkeep as [Hno|Hno]; [congruence | contradiction].
  - intros p sec Hp Hsec Heq.
    destruct (sectionFor_keys _ _ _ _ _ Hsec) as [r [Hr [Hname _]]].
    apply (Hfree p r).
    + eapply Permutation_in; [apply SliceStable_perm | exact Hp].
    + exact Hr.
    + now rewrite <- Heq.
Qed.

End InsertionFacts.

(** ** Sorted slices *)

Lemma ltb_antisym a b :
  String.ltb a b = false -> String.ltb b a = false -> a = b.
Proof.
  unfold String.ltb. rewrite (String.compare_antisym a b).
  destruct (String.compare b a) eqn:E; simpl; try discriminate.
  intros _ _. symmetry. now apply String.compare_eq_iff.
Qed.

Lemma sorted_perm_unique {A : Type} (R : A -> A -> Prop) (l1 : list A) :
  forall l2,
    StronglySorted R l1 -> StronglySorted R l2 -> Permutation l1 l2 ->
    (forall a b, In a l1 -> In b l1 -> R a b -> R b a -> a = b) ->
    l1 = l2.
Proof.
  induction l1 as [|a l1 IH]; intros l2 H1 H2 Hperm Hanti.
  - apply Permutation_nil in Hperm. now subst.
  - destruct l2 as [|b l2].
    { apply Permutation_sym, Permutation_nil in Hperm. discriminate. }
    inversion H1 as [|? ? H1' Ha]; subst.
    inversion H2 as [|? ? H2' Hb]; subst.
    rewrite Forall_forall in Ha, Hb.
    assert (Hab : a = b).
    { assert (Hina : In a (b :: l2))
        by (eapply Permutation_in; [exact Hperm | now left]).
      assert (Hinb : In b (a :: l1))
        by (eapply Permutation_in; [apply Permutation_sym, Hperm | now left]).
      destruct Hina as [Heq|Hina]; [now symmetry|].
      destruct Hinb as [Heq|Hinb]; [exact Heq|].
      apply Hanti; [now left | now right | now apply Ha | now apply Hb]. }
    subst b. f_equal. apply Permutation_cons_inv in Hperm.
    apply IH; auto. intros x y Hx Hy. apply Hanti; now right.
Qed.

Lemma SliceStable_of_permutation ps1 ps2 :
  Permutation ps1 ps2 -> NoDup (map combinedName ps1) ->
  SliceStable lessCombined ps1 = SliceStable lessCombined ps2.
Proof.
  intros Hperm Hnd.
  apply (sorted_perm_unique combinedNameLe).
  - apply sortedProfiles_sorted.
  - apply sortedProfiles_sorted.
  - eapply Permutation_trans; [apply SliceStable_perm|].
    eapply Permutation_trans; [exact Hperm|].
    apply Permutation_sym, SliceStable_perm.
  - intros a b Ha Hb Hab Hba.
    apply (NoDup_map_eq combinedName ps1); auto.
    + eapply Permutation_in; [apply SliceStable_perm | exact Ha].
    + eapply Permutation_in; [apply SliceStable_perm | exact Hb].
    + unfold combinedNameLe, mayPrecede, lessCombined in *.
      now apply ltb_antisym.
Qed.

Lemma dropsFrom_prefix {A : Type} (l1 l2 : list A) : dropsFrom l1 (l1 ++ l2).
Proof.
  induction l1 as [|a l1 IH]; simpl.
  - induction l2 as [|b l2 IH2]; now constructor.
  - now apply drops_keep.
Qed.

(** ** Written sections *)

Lemma pruned_name_gone urls cfg s :
  In s cfg -> shouldPrune urls s = true ->
  ~ In (ini.Name s) (ini.names (prunePass urls cfg)).
Proof.
  intros Hin Hp. unfold ini.names. rewrite in_map_iff.
  intros [s' [Hn Hs']]. rewrite prunePass_spec in Hs'.
  apply filter_In in Hs'. destruct Hs' as [_ Hkeep].
  apply nameNotIn_true in Hkeep. apply Hkeep.
  apply in_doomed. exists s. now rewrite Hn.
Qed.

Lemma writtenKeys_marked flag p profileName :
  ini.lookup "common_fate_generated_from" (writtenKeys flag p profileName)
  = Some (GeneratedFrom p)
  /\ (if ini.HasKey {| ini.Name := ""; ini.Keys := writtenKeys flag p profileName |}
           "granted_sso_start_url"
      then ini.lookup "granted_sso_start_url" (writtenKeys flag p profileName)
      else ini.lookup "sso_start_url" (writtenKeys flag p profileName))
     = Some (SSOStartURL p).
Proof.
  unfold writtenKeys, ini.HasKey.
  destruct flag; destruct (String.eqb (Region p) ""); simpl; split; reflexivity.
Qed.

Lemma keepLast_names_distinct ss : NoDup (ini.names (keepLast ss)).
Proof.
  induction ss as [|s ss IH]; simpl.
  - constructor.
  - destruct (nameIn (ini.names ss) s) eqn:E; [exact IH|].
    simpl. constructor; [|exact IH].
    rewrite keepLast_names. intros Hin. apply nameIn_true in Hin. congruence.
Qed.

Lemma filter_by_name l s :
  NoDup (ini.names l) -> In s l ->
  filter (fun x => String.eqb (ini.Name x) (ini.Name s)) l = [s].
Proof.
  unfold ini.names. induction l as [|a l IH]; simpl; intros Hnd Hin.
  - contradiction.
  - inversion Hnd as [|? ? Hnotin Hnd']; subst. destruct Hin as [->|Hin].
    + rewrite String.eqb_refl. f_equal. apply filter_none.
      intros x Hx. apply String.eqb_neq. intros Heq. apply Hnotin.
      rewrite <- Heq. now apply in_map.
    + replace (String.eqb (ini.Name a) (ini.Name s)) with false.
      * now apply IH.
      * symmetry. apply String.eqb_neq. intros Heq. apply Hnotin.
        rewrite Heq. now apply in_map.
Qed.

Lemma keepLast_last ss1 s ss2 :
  ~ In (ini.Name s) (ini.names ss2) -> In s (keepLast (ss1 ++ s :: ss2)).
Proof.
  intros Hlast. induction ss1 as [|a ss1 IH]; simpl.
  - destruct (nameIn (ini.names ss2) s) eqn:E.
    + apply nameIn_true in E. contradiction.
    + now left.
  - destruct (nameIn _ a); [exact IH | now right].
Qed.

Section WrittenSections.
Context {engine : TemplateEngine}.

Lemma sectionFor_marked prefix flag t p s :
  sectionFor prefix flag t p = Ok s ->
  ini.HasKey s "common_fate_generated_from" = true
  /\ ini.KeyString s "common_fate_generated_from" = GeneratedFrom p
  /\ sectionStartURL s = SSOStartURL p.
Proof.
  intros Hs. destruct (sectionFor_keys _ _ _ _ _ Hs) as [r [_ [_ Hkeys]]].
  destruct (writtenKeys_marked flag p (prefix +++ r)) as [Hm Hu].
  unfold sectionStartURL, ini.HasKey, ini.KeyString in *. rewrite Hkeys.
  simpl in Hu. rewrite Hm. split; [reflexivity|]. split; [reflexivity|].
  destruct (ini.lookup "granted_sso_start_url" _) as [v|].
  - now injection Hu as ->.
  - now rewrite Hu.
Qed.

Lemma renders_all prefix flag t ps :
  (forall q, In q ps -> exists r, Execute t (normalized q) = Ok r) ->
  exists ss, Forall2 (fun p s => sectionFor prefix flag t p = Ok s) ps ss.
Proof.
  induction ps as [|p ps IH]; intros Hall.
  - exists []. constructor.
  - destruct IH as [ss Hss]; [intros q Hq; apply Hall; now right|].
    destruct (Hall p (or_introl eq_refl)) as [r Hr].
    eexists (_ :: ss). constructor; [|exact Hss].
    unfold sectionFor. rewrite Hr. reflexivity.
Qed.

Lemma insertPass_app prefix flag t ps1 ps2 : forall cfg,
  insertPass prefix flag t (ps1 ++ ps2) cfg
  = match insertPass prefix flag t ps1 cfg with
    | (cfg', Some e) => (cfg', Some e)
    | (cfg', None) => insertPass prefix flag t ps2 cfg'
    end.
Proof.
  induction ps1 as [|p ps1 IH]; intros cfg; simpl.
  - reflexivity.
  - destruct (insertProfile prefix flag t p cfg) as [cfg' [e|]].
    + reflexivity.
    + apply IH.
Qed.

(** X5. When the template fails on one profile, [Merge] returns that error
    and leaves the document as a successful [Merge] of the profiles that
    precede the failing one in the sorted order would leave it: their
    sections are written, nothing is rolled back. *)
Theorem Merge_stops_at_failing_profile
    (opts : MergeOpts.t) (t : Template) (before after : list SSOProfile)
    (p : SSOProfile) (e : error) :
  Parse (effectiveTemplate opts) = Ok t ->
  SliceStable lessCombined (MergeOpts.Profiles opts) = before ++ p :: after ->
  (forall q, In q before -> exists r, Execute t (normalized q) = Ok r) ->
  Execute t (normalized p) = Err e ->
  outErr (Merge opts) = Some e
  /\ outConfig (Merge opts)
     = outConfig (Merge (callWith opts (MergeOpts.Config opts) before))
  /\ outErr (Merge (callWith opts (MergeOpts.Config opts) before)) = None.
Proof.
  intros Ht Hsplit Hbefore Hfail.
  destruct (renders_all (MergeOpts.Prefix opts)
              (MergeOpts.NoCredentialProcess opts) t before Hbefore) as [ss Hss].
  assert (Hsorted : SliceStable lessCombined before = before).
  { apply SliceStable_sorted_id.
    apply (dropsFrom_sorted _ before (before ++ p :: after)).
    - apply dropsFrom_prefix.
    - rewrite <- Hsplit. apply sortedProfiles_sorted. }
  assert (Hss' : Forall2 (fun q s =>
                    sectionFor (MergeOpts.Prefix opts)
                      (MergeOpts.NoCredentialProcess opts) t q = Ok s)
                   (SliceStable lessCombined before) ss)
    by now rewrite Hsorted.
  rewrite (Merge_of_shape (callWith opts (MergeOpts.Config opts) before) t ss Ht Hss').
  unfold Merge. fold (effectiveTemplate opts). rewrite Ht, Hsplit.
  rewrite insertPass_app, (insertPass_ok _ _ _ _ _ _ Hss).
  assert (Hsec : sectionFor (MergeOpts.Prefix opts)
                   (MergeOpts.NoCredentialProcess opts) t p = Err e).
  { unfold sectionFor. now rewrite Hfail. }
  cbn [insertPass]. rewrite insertProfile_spec, Hsec. simpl.
  rewrite put_all, put_keepLast. auto.
Qed.

(** X6. A section the insertion loop writes carries the origin marker and
    records the start URL of its profile, so that a pruning pass whose
    prune URLs hold that start URL removes it again. *)
Theorem written_section_is_prunable
    (prefix : string) (noCredentialProcess : bool) (t : Template)
    (p : SSOProfile) (cfg : ini.File) (rendered : string)
    (urls : list string) :
  Execute t (normalized p) = Ok rendered ->
  In (SSOStartURL p) urls ->
  In ("profile " +++ prefix +++ rendered)
     (ini.names (fst (insertProfile prefix noCredentialProcess t p cfg)))
  /\ ~ In ("profile " +++ prefix +++ rendered)
         (ini.names
            (prunePass urls
               (fst (insertProfile prefix noCredentialProcess t p cfg)))).
Proof.
  intros Hexec Hurl. rewrite insertProfile_spec.
  destruct (sectionFor prefix noCredentialProcess t p) as [s|e] eqn:Hs.
  - destruct (sectionFor_keys _ _ _ _ _ Hs) as [r [Hr [Hname _]]].
    rewrite Hexec in Hr. injection Hr as <-. rewrite <- Hname. simpl.
    assert (Hin : In s (put cfg s)).
    { unfold put. apply in_or_app. right. now left. }
    split; [now apply in_map|].
    apply pruned_name_gone; [exact Hin|].
    destruct (sectionFor_marked _ _ _ _ _ Hs) as [Hm [_ Hu]].
    apply shouldPrune_true. now rewrite Hu.
  - unfold sectionFor in Hs. rewrite Hexec in Hs. discriminate.
Qed.

(** X7. After a successful [Merge], a section that carries the origin
    marker and whose start URL is one of the prune URLs is a section this
    call wrote for one of its profiles: generated sections of those start
    URLs that no profile stands for any more are gone. *)
Theorem Merge_leaves_no_stale_section (opts : MergeOpts.t) (s : ini.Section_) :
  outErr (Merge opts) = None ->
  In s (outConfig (Merge opts)) ->
  ini.HasKey s "common_fate_generated_from" = true ->
  In (sectionStartURL s) (MergeOpts.PruneStartURLs opts) ->
  exists t p,
    Parse (effectiveTemplate opts) = Ok t
    /\ In p (MergeOpts.Profiles opts)
    /\ sectionFor (MergeOpts.Prefix opts)
         (MergeOpts.NoCredentialProcess opts) t p = Ok s.
Proof.
  intros Hok Hin Hmark Hurl.
  destruct (Merge_shape opts Hok) as [t [ss [Ht [Hss Hcfg]]]].
  rewrite Hcfg in Hin. apply in_app_or in Hin. destruct Hin as [Hin|Hin].
  - apply filter_In in Hin. destruct Hin as [Hin _].
    apply prunePass_survivor in Hin. destruct Hin as [_ Hno].
    assert (shouldPrune (MergeOpts.PruneStartURLs opts) s = true)
      by now apply shouldPrune_true.
    congruence.
  - apply keepLast_incl in Hin.
    destruct (Forall2_In_r _ _ _ _ Hss Hin) as [p [Hp Hps]].
    exists t, p. repeat split; auto.
    eapply Permutation_in; [apply SliceStable_perm | exact Hp].
Qed.

Lemma Merge_sections_named (opts : MergeOpts.t) t ss s :
  Parse (effectiveTemplate opts) = Ok t ->
  Forall2 (fun p s =>
             sectionFor (MergeOpts.Prefix opts)
               (MergeOpts.NoCredentialProcess opts) t p = Ok s)
          (SliceStable lessCombined (MergeOpts.Profiles opts)) ss ->
  In s (keepLast ss) ->
  filter (fun x => String.eqb (ini.Name x) (ini.Name s)) (outConfig (Merge opts))
  = [s].
Proof.
  intros Ht Hss Hin. rewrite (Merge_of_shape opts t ss Ht Hss). simpl.
  rewrite filter_app, filter_none.
  - simpl. apply filter_by_name; [apply keepLast_names_distinct | exact Hin].
  - intros x Hx. apply filter_In in Hx. destruct Hx as [_ Hx].
    apply nameNotIn_true in Hx. apply String.eqb_neq. intros Heq.
    apply Hx. rewrite Heq. apply keepLast_names. now apply in_map.
Qed.

(** X8. After a successful [Merge] the document holds exactly one section
    under the name a profile renders to, whatever sections of that name the
    input held, and it is a section written for a profile of this call. *)
Theorem Merge_one_section_per_name
    (opts : MergeOpts.t) (t : Template) (p : SSOProfile) (s : ini.Section_) :
  outErr (Merge opts) = None ->
  Parse (effectiveTemplate opts) = Ok t ->
  In p (MergeOpts.Profiles opts) ->
  sectionFor (MergeOpts.Prefix opts) (MergeOpts.NoCredentialProcess opts) t p
  = Ok s ->
  exists q s',
    In q (MergeOpts.Profiles opts)
    /\ sectionFor (MergeOpts.Prefix opts)
         (MergeOpts.NoCredentialProcess opts) t q = Ok s'
    /\ ini.Name s' = ini.Name s
    /\ filter (fun x => String.eqb (ini.Name x) (ini.Name s))
         (outConfig (Merge opts))
       = [s'].
Proof.
  intros Hok Ht Hp Hs.
  destruct (Merge_shape opts Hok) as [t' [ss [Ht' [Hss _]]]].
  rewrite Ht in Ht'. injection Ht' as <-.
  assert (Hp' : In p (SliceStable lessCombined (MergeOpts.Profiles opts))).
  { eapply Permutation_in; [apply Permutation_sym, SliceStable_perm | exact Hp]. }
  destruct (Forall2_In_l _ _ _ _ Hss Hp') as [s0 [Hs0 Hps0]].
  rewrite Hs in Hps0. injection Hps0 as <-.
  assert (Hname : In (ini.Name s) (ini.names (keepLast ss))).
  { apply keepLast_names. now apply in_map. }
  unfold ini.names in Hname. apply in_map_iff in Hname.
  destruct Hname as [s' [Hn Hin']].
  pose proof (keepLast_incl _ _ Hin') as Hin''.
  destruct (Forall2_In_r _ _ _ _ Hss Hin'') as [q [Hq Hqs]].
  exists q, s'. split.
  { eapply Permutation_in; [apply SliceStable_perm | exact Hq]. }
  split; [exact Hqs|]. split; [exact Hn|].
  rewrite <- Hn. now apply (Merge_sections_named opts t ss).
Qed.

(** X9. When several profiles render to one section name the last of them
    in the sorted order wins: the document a successful [Merge] leaves
    holds, under that name, the section written for that profile and no
    other. *)
Theorem Merge_last_writer_wins
    (opts : MergeOpts.t) (t : Template) (before after : list SSOProfile)
    (q : SSOProfile) (s : ini.Section_) :
  outErr (Merge opts) = None ->
  Parse (effectiveTemplate opts) = Ok t ->
  SliceStable lessCombined (MergeOpts.Profiles opts) = before ++ q :: after ->
  sectionFor (MergeOpts.Prefix opts) (MergeOpts.NoCredentialProcess opts) t q
  = Ok s ->
  (forall r sr,
     In r after ->
     sectionFor (MergeOpts.Prefix opts) (MergeOpts.NoCredentialProcess opts) t r
     = Ok sr ->
     ini.Name sr <> ini.Name s) ->
  filter (fun x => String.eqb (ini.Name x) (ini.Name s)) (outConfig (Merge opts))
  = [s].
Proof.
  intros Hok Ht Hsplit Hs Hlast.
  destruct (Merge_shape opts Hok) as [t' [ss [Ht' [Hss _]]]].
  rewrite Ht in Ht'. injection Ht' as <-.
  apply (Merge_sections_named opts t ss s Ht Hss).
  rewrite Hsplit in Hss. apply Forall2_app_inv_l in Hss.
  destruct Hss as [ss1 [ss2 [_ [Hrest ->]]]].
  inversion Hrest as [|? s0 ? ss3 Hq Hafter]; subst.
  rewrite Hs in Hq. injection Hq as <-.
  apply keepLast_last. unfold ini.names. rewrite in_map_iff.
  intros [sr [Hn Hin]].
  destruct (Forall2_In_r _ _ _ _ Hafter Hin) as [r [Hr Hrs]].
  exact (Hlast r sr Hr Hrs Hn).
Qed.

(** X10. When no two profiles have the same combined name, [Merge] does
    the same whatever the order of the supplied list: two lists that are
    permutations of each other give the same document, the same sorted
    slice and the same error. *)
Theorem Merge_ignores_supplied_order
    (opts : MergeOpts.t) (ps1 ps2 : list SSOProfile) :
  Permutation ps1 ps2 ->
  NoDup (map combinedName ps1) ->
  Merge (callWith opts (MergeOpts.Config opts) ps1)
  = Merge (callWith opts (MergeOpts.Config opts) ps2).
Proof.
  intros Hperm Hnd. unfold Merge. simpl.
  now rewrite (SliceStable_of_permutation ps1 ps2 Hperm Hnd).
Qed.

End WrittenSections.

(** ** The generator's checks *)

Lemma inSet_true set c : regexp.inSet set c = true <-> In c (bytes set).
Proof.
  unfold regexp.inSet, bytes. rewrite existsb_exists. split.
  - intros [x [Hin Heq]]. apply Ascii.eqb_eq in Heq. now subst.
  - intros Hin. exists c. split; [exact Hin | apply Ascii.eqb_refl].
Qed.

Lemma ContainsAny_true s chars :
  ContainsAny s chars = true <->
  exists c, In c (bytes s) /\ In c (bytes chars).
Proof.
  unfold ContainsAny. rewrite existsb_exists. split.
  - intros [c [Hin Hset]]. exists c. split; [exact Hin | now apply inSet_true].
  - intros [c [Hin Hset]]. exists c. split; [exact Hin | now apply inSet_true].
Qed.

Lemma illegalOrSpace_split c :
  illegalOrSpace c = regexp.space c || illegalNonSpace c.
Proof. unfold illegalOrSpace, illegalNonSpace. now rewrite orb_assoc. Qed.

(** A match of the pattern needs an illegal character. *)
Lemma matchHere_illegal bot s :
  regexp.matchHere profileSectionIllegalCharsRegex bot s <> None ->
  exists c, In c (bytes s) /\ illegalOrSpace c = true.
Proof.
  unfold regexp.matchHere, profileSectionIllegalCharsRegex, bytes.
  cbn [regexp.run]. destruct s as [|a rest].
  - destruct bot; simpl; congruence.
  - destruct (illegalOrSpace a) eqn:Ha.
    { intros _. exists a. split; [now left | exact Ha]. }
    assert (Hb : illegalNonSpace a = false).
    { rewrite illegalOrSpace_split in Ha. now apply orb_false_iff in Ha. }
    rewrite Hb. destruct rest as [|b rest'].
    + destruct bot, (negb (Ascii.eqb a "{")); simpl; congruence.
    + destruct (illegalOrSpace b) eqn:Hib.
      { intros _. exists b. split; [right; now left | exact Hib]. }
      destruct bot, (negb (Ascii.eqb a "{")); simpl; congruence.
Qed.

Lemma search_illegal s : forall bot,
  regexp.search profileSectionIllegalCharsRegex bot s = true ->
  exists c, In c (bytes s) /\ illegalOrSpace c = true.
Proof.
  induction s as [|a s IH]; intros bot; simpl.
  - destruct (regexp.matchHere _ bot "") eqn:E; [|discriminate].
    intros _. apply (matchHere_illegal bot ""). congruence.
  - destruct (regexp.matchHere _ bot (String a s)) eqn:E.
    + intros _. apply (matchHere_illegal bot (String a s)). congruence.
    + intros H. destruct (IH false H) as [c [Hin Hc]].
      exists c. split; [now right | exact Hc].
Qed.

Lemma removeAll_bytes r s : forall bot skip c,
  In c (bytes (regexp.removeAll r bot skip s)) -> In c (bytes s).
Proof.
  unfold bytes. induction s as [|a s IH]; intros bot skip c.
  - auto.
  - cbn [regexp.removeAll]. destruct skip as [|n].
    + destruct (regexp.matchHere r bot (String a s)) as [t|].
      * destruct (String.length (String a s) - String.length t) as [|n].
        -- simpl. intros [H|H]; [now left | right; eauto].
        -- simpl. intros H. right. eauto.
      * simpl. intros [H|H]; [now left | right; eauto].
    + simpl. intros H. right. eauto.
Qed.

(** After a character other than the opening brace, an illegal character
    further on in brace-free text is found. *)
Lemma search_after_other rest : forall a bot,
  a <> "{"%char -> ~ In "{"%char (bytes rest) ->
  (exists c, In c (bytes rest) /\ illegalOrSpace c = true) ->
  regexp.search profileSectionIllegalCharsRegex bot (String a rest) = true.
Proof.
  unfold bytes. induction rest as [|b rest IH]; intros a bot Ha Hno [c [Hin Hc]].
  - contradiction.
  - simpl in Hin, Hno. destruct (illegalOrSpace b) eqn:Hb.
    + apply search_here. now apply illegal_after_other.
    + destruct Hin as [->|Hin]; [congruence|].
      cbn [regexp.search].
      destruct (regexp.matchHere _ bot _); [reflexivity|].
      apply IH; [tauto | tauto | now exists c].
Qed.

Lemma search_brace_free s :
  ~ In "{"%char (bytes s) ->
  (exists c, In c (bytes s) /\ illegalOrSpace c = true) ->
  regexp.MatchString profileSectionIllegalCharsRegex s = true.
Proof.
  unfold regexp.MatchString. destruct s as [|a rest].
  - intros _ [c [[] _]].
  - intros Hno [c [Hin Hc]]. unfold bytes in Hno, Hin. simpl in Hno, Hin.
    destruct (illegalOrSpace a) eqn:Ha.
    + apply search_here. now apply illegal_at_start.
    + destruct Hin as [->|Hin]; [congruence|].
      apply (search_after_other rest a true); [tauto | tauto | now exists c].
Qed.

(** ** Template regions *)

Lemma length_append a b :
  String.length (a +++ b) = String.length a + String.length b.
Proof. induction a as [|x a IH]; simpl; [reflexivity | now rewrite IH]. Qed.

Lemma bytes_append a b : bytes (a +++ b) = bytes a ++ bytes b.
Proof.
  unfold bytes. induction a as [|x a IH]; simpl; [reflexivity | now rewrite IH].
Qed.

Lemma matchGoTemplateSection_bot bot s :
  regexp.matchHere matchGoTemplateSection bot s
  = regexp.matchHere matchGoTemplateSection false s.
Proof. destruct s; reflexivity. Qed.

Lemma removeAll_bot s : forall bot skip,
  regexp.removeAll matchGoTemplateSection bot skip s
  = regexp.removeAll matchGoTemplateSection false skip s.
Proof.
  induction s as [|a s IH]; intros bot skip; simpl.
  - reflexivity.
  - destruct skip; [|reflexivity].
    now rewrite (matchGoTemplateSection_bot bot).
Qed.

Lemma headIs_append c x y z :
  headIs c (x +++ String c y) = headIs c (x +++ String c z).
Proof. destruct x; reflexivity. Qed.

Lemma closeBraces_fails bot c s k :
  Ascii.eqb c "}" && headIs "}" s = false ->
  regexp.run closeBraces bot (String c s) k = None.
Proof.
  intros Hc. unfold closeBraces, regexp.lit. cbn [regexp.run].
  rewrite (Ascii.eqb_sym "}" c). destruct (Ascii.eqb c "}"); [|reflexivity].
  simpl in Hc. destruct s as [|d s']; [reflexivity|]. simpl in Hc.
  now rewrite (Ascii.eqb_sym "}" d), Hc.
Qed.

Lemma lazyStar_first_close inner : forall bot rest,
  hasPair "}" (inner +++ "}") = false ->
  regexp.lazyStar regexp.anyByte bot (inner +++ "}}" +++ rest)
    (fun b t => regexp.run closeBraces b t (fun _ t' => Some t'))
  = Some rest.
Proof.
  induction inner as [|c inner IH]; intros bot rest Hno.
  - reflexivity.
  - cbn [String.append hasPair] in Hno. apply orb_false_iff in Hno.
    destruct Hno as [Hhere Hlater].
    cbn [String.append regexp.lazyStar].
    change (regexp.anyByte c) with true. cbv iota.
    rewrite closeBraces_fails.
    + cbn [regexp.orElse]. now apply IH.
    + now rewrite (headIs_append "}" inner _ "").
Qed.

Lemma matchHere_region bot inner rest :
  hasPair "}" (inner +++ "}") = false ->
  regexp.matchHere matchGoTemplateSection bot ("{{" +++ inner +++ "}}" +++ rest)
  = Some rest.
Proof.
  intros Hno. unfold regexp.matchHere, matchGoTemplateSection, regexp.lit.
  cbn [regexp.run String.append]. simpl Ascii.eqb. cbn iota.
  now apply (lazyStar_first_close inner false rest).
Qed.

Lemma matchHere_no_pair bot c s :
  Ascii.eqb c "{" && headIs "{" s = false ->
  regexp.matchHere matchGoTemplateSection bot (String c s) = None.
Proof.
  intros Hc. unfold regexp.matchHere, matchGoTemplateSection, regexp.lit.
  cbn [regexp.run]. rewrite (Ascii.eqb_sym "{" c).
  destruct (Ascii.eqb c "{"); [|reflexivity].
  simpl in Hc. destruct s as [|d s']; [reflexivity|]. simpl in Hc.
  now rewrite (Ascii.eqb_sym "{" d), Hc.
Qed.

Lemma removeAll_skip x : forall bot y,
  regexp.removeAll matchGoTemplateSection bot (String.length x) (x +++ y)
  = regexp.removeAll matchGoTemplateSection false 0 y.
Proof.
  induction x as [|c x IH]; intros bot y; simpl.
  - apply removeAll_bot.
  - apply IH.
Qed.

Lemma removeAll_region a : forall inner rest,
  hasPair "{" (a +++ "{") = false ->
  hasPair "}" (inner +++ "}") = false ->
  regexp.removeAll matchGoTemplateSection false 0
    (a +++ "{{" +++ inner +++ "}}" +++ rest)
  = a +++ regexp.removeAll matchGoTemplateSection false 0 rest.
Proof.
  induction a as [|c a IH]; intros inner rest Ha Hinner.
  - pose proof (matchHere_region false inner rest Hinner) as Hm.
    change ("" +++ "{{" +++ inner +++ "}}" +++ rest)
      with (String "{" (String "{" (inner +++ "}}" +++ rest))).
    change ("{{" +++ inner +++ "}}" +++ rest)
      with (String "{" (String "{" (inner +++ "}}" +++ rest))) in Hm.
    cbn [regexp.removeAll]. rewrite Hm.
    replace (String.length (String "{" (String "{" (inner +++ "}}" +++ rest)))
             - String.length rest)
      with (S (String.length ("{" +++ inner +++ "}}")))
      by (cbn [String.length String.append]; rewrite !length_append;
          cbn [String.length]; lia).
    cbv iota. rewrite <- (removeAll_skip ("{" +++ inner +++ "}}") false rest).
    f_equal. simpl. now rewrite append_assoc.
  - cbn [String.append hasPair] in Ha. apply orb_false_iff in Ha.
    destruct Ha as [Hhere Hlater].
    cbn [String.append regexp.removeAll].
    rewrite matchHere_no_pair.
    + f_equal. now apply IH.
    + now rewrite (headIs_append "{" a _ "").
Qed.

Lemma removeAll_no_open a :
  hasPair "{" a = false ->
  regexp.removeAll matchGoTemplateSection false 0 a = a.
Proof.
  induction a as [|c a IH]; intros Ha.
  - reflexivity.
  - cbn [hasPair] in Ha. apply orb_false_iff in Ha. destruct Ha as [Hhere Hlater].
    cbn [regexp.removeAll]. rewrite matchHere_no_pair by exact Hhere.
    f_equal. now apply IH.
Qed.

(** X11. Removing the substitution regions drops a region whole, from its
    two opening braces to the first two closing braces after them, single
    closing braces inside it included; it keeps the text before the region,
    which may hold single opening braces, and goes on with the text after
    it.  Text without two opening braces in a row is kept as it is. *)
Theorem ReplaceAll_drops_region (a inner rest : string) :
  (hasPair "{" (a +++ "{") = false ->
   hasPair "}" (inner +++ "}") = false ->
   regexp.ReplaceAllEmpty matchGoTemplateSection
     (a +++ "{{" +++ inner +++ "}}" +++ rest)
   = a +++ regexp.ReplaceAllEmpty matchGoTemplateSection rest)
  /\ (hasPair "{" a = false ->
      regexp.ReplaceAllEmpty matchGoTemplateSection a = a).
Proof.
  unfold regexp.ReplaceAllEmpty.
  rewrite (removeAll_bot (a +++ "{{" +++ inner +++ "}}" +++ rest) true 0).
  rewrite (removeAll_bot rest true 0), (removeAll_bot a true 0).
  split.
  - intros Ha Hinner. now apply removeAll_region.
  - apply removeAll_no_open.
Qed.

Section GeneratorFacts.
Context {engine : TemplateEngine}.

(** X12. A prefix that holds a space, a backslash, a bracket, a semicolon
    or a quote makes [Generate] fail with the prefix error before any
    source is queried, the document untouched; a prefix that holds none of
    them passes the prefix check. *)
Theorem Generate_checks_prefix (g : Generator.t) :
  let illegal :=
    [ " "%char; "\"%char; "]"%char; "["%char; ";"%char; "'"%char; dquote ] in
  ((exists c, In c (bytes (Generator.Prefix g)) /\ In c illegal) ->
   forall out, Generate g out ->
     genConfig out = Generator.Config g
     /\ genErr out = Some (illegalMessage "profile prefix")
     /\ genCalls out = 0)
  /\ ((forall c, In c (bytes (Generator.Prefix g)) -> ~ In c illegal) ->
      prefixRejected g = false).
Proof.
  intros illegal. split.
  - intros Hbad out [finished [_ ->]].
    assert (Hrej : ContainsAny (Generator.Prefix g) profileSectionIllegalChars
                   = true) by now apply ContainsAny_true.
    unfold GenerateIn. rewrite Hrej. simpl. auto.
  - intros Hgood. unfold prefixRejected.
    destruct (ContainsAny _ _) eqn:E; [|reflexivity].
    apply ContainsAny_true in E. destruct E as [c [Hin Hc]].
    exfalso. exact (Hgood c Hin Hc).
Qed.

(** X13. The template check rejects nothing clean: when it rejects a
    template, the template is not the default one and its text holds white
    space, a bracket, a semicolon or a quote. *)
Theorem template_rejection_needs_illegal_character (g : Generator.t) :
  templateRejected g = true ->
  templateOf g <> DefaultProfileNameTemplate
  /\ exists c, In c (bytes (templateOf g)) /\ illegalOrSpace c = true.
Proof.
  unfold templateRejected. intros H. apply andb_true_iff in H.
  destruct H as [Hnd Hmatch]. split.
  - apply negb_true_iff in Hnd. now apply String.eqb_neq.
  - apply search_illegal in Hmatch. destruct Hmatch as [c [Hin Hc]].
    exists c. split; [|exact Hc].
    now apply (removeAll_bytes matchGoTemplateSection _ true 0).
Qed.

(** X14. When the text left after the substitution regions are removed
    holds no opening brace, the template check is exact: a template other
    than the default one is rejected if and only if that text holds white
    space, a bracket, a semicolon or a quote. *)
Theorem template_check_exact_without_brace (g : Generator.t) :
  templateOf g <> DefaultProfileNameTemplate ->
  ~ In "{"%char
      (bytes (regexp.ReplaceAllEmpty matchGoTemplateSection (templateOf g))) ->
  (templateRejected g = true <->
   exists c,
     In c (bytes (regexp.ReplaceAllEmpty matchGoTemplateSection (templateOf g)))
     /\ illegalOrSpace c = true).
Proof.
  intros Hnd Hno. unfold templateRejected.
  apply String.eqb_neq in Hnd. rewrite Hnd. simpl. split.
  - apply search_illegal.
  - now apply search_brace_free.
Qed.

Lemma runTask_all_ok finished : forall st,
  (forall s, In s finished -> exists got, GetProfiles s = Ok got) ->
  fold_left runTask finished st
  = {| firstErr := firstErr st;
       collected := collected st ++ flat_map profilesOf finished;
       calls := calls st + List.length finished |}.
Proof.
  induction finished as [|s l IH]; intros st Hall; simpl.
  - destruct st. simpl. now rewrite app_nil_r, Nat.add_0_r.
  - rewrite IH by (intros x Hx; apply Hall; now right).
    destruct (Hall s (or_introl eq_refl)) as [got Hgot].
    unfold runTask, profilesOf. rewrite Hgot. simpl.
    now rewrite <- app_assoc, Nat.add_succ_r.
Qed.

Lemma GenerateIn_all_ok finished g :
  prefixRejected g = false -> templateRejected g = false ->
  (forall s, In s finished -> exists got, GetProfiles s = Ok got) ->
  GenerateIn finished g
  = {| genConfig :=
         outConfig (Merge (mergeOptsOf g (flat_map profilesOf finished)));
       genErr := outErr (Merge (mergeOptsOf g (flat_map profilesOf finished)));
       genCalls := List.length finished |}.
Proof.
  intros Hp Ht Hall. rewrite (GenerateIn_checked finished g Hp Ht).
  cbv zeta. now rewrite (runTask_all_ok finished _ Hall).
Qed.

Lemma GenerateIn_rejected_any finished g :
  prefixRejected g = true \/ templateRejected g = true ->
  GenerateIn finished g = GenerateIn [] g.
Proof.
  unfold prefixRejected, templateRejected, templateOf, GenerateIn.
  destruct (ContainsAny _ _); [reflexivity|].
  intros [H|H]; [discriminate|]. now rewrite H.
Qed.

(** X15. When every source succeeds and the checks pass, [Generate] queries
    each source and then does what [Merge] does on the profiles of all
    sources, put together in the order in which the sources finished. *)
Theorem Generate_merges_all_sources (g : Generator.t) (out : GenerateOutcome) :
  Generate g out ->
  prefixRejected g = false -> templateRejected g = false ->
  (forall s, In s (Generator.Sources g) -> exists got, GetProfiles s = Ok got) ->
  exists profiles,
    Permutation profiles (flat_map profilesOf (Generator.Sources g))
    /\ genConfig out = outConfig (Merge (mergeOptsOf g profiles))
    /\ genErr out = outErr (Merge (mergeOptsOf g profiles))
    /\ genCalls out = List.length (Generator.Sources g).
Proof.
  intros [finished [Hperm ->]] Hp Ht Hall.
  exists (flat_map profilesOf finished).
  rewrite (GenerateIn_all_ok finished g Hp Ht).
  - simpl. split; [now apply Permutation_flat_map|].
    split; [reflexivity|]. split; [reflexivity|].
    now apply Permutation_length.
  - intros s Hs. apply Hall. eapply Permutation_in; [exact Hperm | exact Hs].
Qed.

(** X16. When every source succeeds and no two of the profiles they hand
    over have the same combined name, [Generate] has one outcome: the
    order in which the concurrent sources finish changes neither the
    document nor the result. *)
Theorem Generate_outcome_independent_of_schedule
    (g : Generator.t) (out1 out2 : GenerateOutcome) :
  (forall s, In s (Generator.Sources g) -> exists got, GetProfiles s = Ok got) ->
  NoDup (map combinedName (flat_map profilesOf (Generator.Sources g))) ->
  Generate g out1 -> Generate g out2 -> out1 = out2.
Proof.
  intros Hall Hnd [f1 [Hperm1 ->]] [f2 [Hperm2 ->]].
  destruct (prefixRejected g) eqn:Hp.
  { rewrite (GenerateIn_rejected_any f1), (GenerateIn_rejected_any f2); auto. }
  destruct (templateRejected g) eqn:Ht.
  { rewrite (GenerateIn_rejected_any f1), (GenerateIn_rejected_any f2); auto. }
  assert (Hok : forall f, Permutation f (Generator.Sources g) ->
                forall s, In s f -> exists got, GetProfiles s = Ok got).
  { intros f Hf s Hs. apply Hall. eapply Permutation_in; [exact Hf | exact Hs]. }
  rewrite (GenerateIn_all_ok f1 g Hp Ht (Hok f1 Hperm1)).
  rewrite (GenerateIn_all_ok f2 g Hp Ht (Hok f2 Hperm2)).
  assert (Hperm : Permutation f1 f2)
    by (eapply Permutation_trans; [exact Hperm1 | now apply Permutation_sym]).
  assert (Hsame : Merge (mergeOptsOf g (flat_map profilesOf f1))
                  = Merge (mergeOptsOf g (flat_map profilesOf f2))).
  { unfold Merge. simpl.
    rewrite (SliceStable_of_permutation (flat_map profilesOf f1)
               (flat_map profilesOf f2)); [reflexivity | |].
    - now apply Permutation_flat_map.
    - eapply Permutation_NoDup; [|exact Hnd].
      apply Permutation_map, Permutation_flat_map. now apply Permutation_sym. }
  rewrite Hsame. f_equal. now apply Permutation_length.
Qed.

(** X17. [AddSource] puts the source after the sources already registered
    and changes nothing else.  A [Generate] that follows queries the old
    sources and the new one: when the new source fails, [Generate] returns
    an error and leaves the document as it was; when the checks pass and
    every source succeeds, it queries each of them once and merges the
    profiles of the old sources together with those of the new one. *)
Theorem AddSource_then_Generate
    (g : Generator.t) (source : Source) (out : GenerateOutcome) :
  Generator.Sources (AddSource g source) = Generator.Sources g ++ [source]
  /\ (Generate (AddSource g source) out ->
      forall e, GetProfiles source = Err e ->
        genConfig out = Generator.Config g /\ genErr out <> None)
  /\ (Generate (AddSource g source) out ->
      prefixRejected g = false -> templateRejected g = false ->
      (forall s, In s (Generator.Sources g) ->
                 exists got, GetProfiles s = Ok got) ->
      forall got, GetProfiles source = Ok got ->
        exists profiles,
          Permutation profiles
            (flat_map profilesOf (Generator.Sources g) ++ got)
          /\ genConfig out = outConfig (Merge (mergeOptsOf g profiles))
          /\ genErr out = outErr (Merge (mergeOptsOf g profiles))
          /\ genCalls out = S (List.length (Generator.Sources g))).
Proof.
  split; [reflexivity|]. split.
  - intros [finished [Hperm ->]] e Herr.
    destruct (prefixRejected (AddSource g source)) eqn:Hp.
    { destruct (GenerateIn_rejected finished _ (or_introl Hp)) as [Hc [He _]].
      now split. }
    destruct (templateRejected (AddSource g source)) eqn:Ht.
    { destruct (GenerateIn_rejected finished _ (or_intror Ht)) as [Hc [He _]].
      now split. }
    assert (Hin : In source finished).
    { eapply Permutation_in; [apply Permutation_sym, Hperm|].
      simpl. apply in_or_app. right. now left. }
    destruct (runTask_finds_error finished
                {| firstErr := None; collected := []; calls := 0 |}
                source e eq_refl Hin Herr) as [s' [e' [_ [_ Hfirst]]]].
    rewrite (GenerateIn_checked finished _ Hp Ht). cbv zeta. rewrite Hfirst.
    simpl. split; [reflexivity | discriminate].
  - intros [finished [Hperm ->]] Hp Ht Hall got Hgot.
    exists (flat_map profilesOf finished).
    assert (Hok : forall s, In s finished -> exists ps, GetProfiles s = Ok ps).
    { intros s Hs. apply (Permutation_in _ Hperm) in Hs. simpl in Hs.
      apply in_app_or in Hs. destruct Hs as [Hs|[<-|[]]]; [now apply Hall|].
      now exists got. }
    rewrite (GenerateIn_all_ok finished (AddSource g source) Hp Ht Hok). simpl.
    split.
    + eapply Permutation_trans; [apply Permutation_flat_map, Hperm|].
      simpl. rewrite flat_map_app. simpl. unfold profilesOf at 2.
      rewrite Hgot, app_nil_r. apply Permutation_refl.
    + split; [reflexivity|]. split; [reflexivity|].
      rewrite (Permutation_length Hperm). simpl.
      rewrite length_app. simpl. lia.
Qed.

End GeneratorFacts.

(** ** Instances of the further properties *)

Lemma Merge_keeps_names_distinct_witness :
  NoDup (ini.names (MergeOpts.Config pruningOpts))
  /\ NoDup (ini.names (outConfig (@Merge fieldTemplate.engine pruningOpts))).
Proof.
  assert (Hnd : NoDup (ini.names (MergeOpts.Config pruningOpts)))
    by (simpl; distinct_strings).
  split; [exact Hnd|].
  exact (@Merge_keeps_names_distinct fieldTemplate.engine pruningOpts Hnd).
Defined.

Lemma Merge_keeps_untouched_section_witness :
  let opts := optsFor mixedConfig [testingDevRole] false ["https://example.com"] in
  let mine := {| ini.Name := "profile mine";
                 ini.Keys := [("sso_start_url", "https://example.com")] |} in
  In mine (MergeOpts.Config opts)
  /\ ini.HasKey mine "common_fate_generated_from" = false
  /\ In mine (outConfig (@Merge fieldTemplate.engine opts)).
Proof.
  intros opts mine.
  assert (Hin : In mine (MergeOpts.Config opts)) by (simpl; tauto).
  split; [exact Hin|]. split; [reflexivity|].
  apply (@Merge_keeps_untouched_section fieldTemplate.engine opts defaultTempl mine).
  - simpl. distinct_strings.
  - reflexivity.
  - exact Hin.
  - left. reflexivity.
  - intros p rendered [<-|[]] Hexec. vm_compute in Hexec.
    injection Hexec as <-. discriminate.
Defined.

Lemma Merge_stops_at_failing_profile_witness :
  let opts :=
    optsFor exampleConfig [testingDevRole; account "prod" "Admin"] false [] in
  @Execute regionRequired tt (normalized testingDevRole) = Err "region is required"
  /\ outErr (@Merge regionRequired opts) = Some "region is required"
  /\ outConfig (@Merge regionRequired opts)
     = outConfig
         (@Merge regionRequired
            (callWith opts (MergeOpts.Config opts) [account "prod" "Admin"]))
  /\ outErr
       (@Merge regionRequired
          (callWith opts (MergeOpts.Config opts) [account "prod" "Admin"]))
     = None.
Proof.
  intros opts. split; [reflexivity|].
  apply (@Merge_stops_at_failing_profile regionRequired opts tt
           [account "prod" "Admin"] [] testingDevRole "region is required").
  - reflexivity.
  - reflexivity.
  - intros q [<-|[]]. exists "prod/Admin". reflexivity.
  - reflexivity.
Defined.

Lemma written_section_is_prunable_witness :
  In "profile testing/DevRole"
     (ini.names
        (fst (@insertProfile fieldTemplate.engine "" false defaultTempl
                testingDevRole exampleConfig)))
  /\ ~ In "profile testing/DevRole"
         (ini.names
            (prunePass ["https://example.com"]
               (fst (@insertProfile fieldTemplate.engine "" false defaultTempl
                       testingDevRole exampleConfig)))).
Proof.
  apply (@written_section_is_prunable fieldTemplate.engine "" false defaultTempl
           testingDevRole exampleConfig "testing/DevRole" ["https://example.com"]).
  - reflexivity.
  - simpl. tauto.
Defined.

Lemma Merge_leaves_no_stale_section_witness :
  let opts := optsFor mixedConfig [account "prod" "Admin"] false
                ["https://example.awsapps.com/start"; "https://example.com"] in
  let s := sectionNumbered "123456789012" "prod/Admin" "Admin" in
  In s (outConfig (@Merge fieldTemplate.engine opts))
  /\ ~ In "profile old/Role"
         (ini.names (outConfig (@Merge fieldTemplate.engine opts)))
  /\ exists t p,
       @Parse fieldTemplate.engine (effectiveTemplate opts) = Ok t
       /\ In p (MergeOpts.Profiles opts)
       /\ @sectionFor fieldTemplate.engine (MergeOpts.Prefix opts)
            (MergeOpts.NoCredentialProcess opts) t p = Ok s.
Proof.
  intros opts s.
  assert (Hin : In s (outConfig (@Merge fieldTemplate.engine opts))).
  { vm_compute. tauto. }
  split; [exact Hin|]. split.
  { vm_compute. intuition discriminate. }
  apply (@Merge_leaves_no_stale_section fieldTemplate.engine opts s).
  - reflexivity.
  - exact Hin.
  - reflexivity.
  - simpl. tauto.
Defined.

Lemma Merge_one_section_per_name_witness :
  let opts :=
    optsFor
      [ {| ini.Name := "profile prod/Admin"; ini.Keys := [("region", "eu-west-1")] |} ]
      [account "prod" "Admin"] false [] in
  let s := sectionNumbered "123456789012" "prod/Admin" "Admin" in
  exists q s',
    In q (MergeOpts.Profiles opts)
    /\ @sectionFor fieldTemplate.engine (MergeOpts.Prefix opts)
         (MergeOpts.NoCredentialProcess opts) defaultTempl q = Ok s'
    /\ ini.Name s' = ini.Name s
    /\ filter (fun x => String.eqb (ini.Name x) (ini.Name s))
         (outConfig (@Merge fieldTemplate.engine opts))
       = [s'].
Proof.
  intros opts s.
  apply (@Merge_one_section_per_name fieldTemplate.engine opts defaultTempl
           (account "prod" "Admin") s).
  - reflexivity.
  - reflexivity.
  - simpl. tauto.
  - reflexivity.
Defined.

Lemma Merge_last_writer_wins_witness :
  let first := accountNumbered "111111111111" "my prod" "Admin" in
  let last := accountNumbered "222222222222" "my-prod" "Admin" in
  let opts := optsFor exampleConfig [last; first] false [] in
  SliceStable lessCombined (MergeOpts.Profiles opts) = [first] ++ last :: []
  /\ filter (fun x => String.eqb (ini.Name x) "profile my-prod/Admin")
       (outConfig (@Merge fieldTemplate.engine opts))
     = [sectionNumbered "222222222222" "my-prod/Admin" "Admin"].
Proof.
  intros first last opts. split; [reflexivity|].
  apply (@Merge_last_writer_wins fieldTemplate.engine opts defaultTempl
           [first] [] last
           (sectionNumbered "222222222222" "my-prod/Admin" "Admin")).
  - reflexivity.
  - reflexivity.
  - reflexivity.
  - reflexivity.
  - intros r sr [].
Defined.

Lemma Merge_ignores_supplied_order_witness :
  let ps1 := [account "staging" "Admin"; account "prod" "Admin"] in
  let ps2 := [account "prod" "Admin"; account "staging" "Admin"] in
  Permutation ps1 ps2
  /\ NoDup (map combinedName ps1)
  /\ @Merge fieldTemplate.engine (callWith pruningOpts exampleConfig ps1)
     = @Merge fieldTemplate.engine (callWith pruningOpts exampleConfig ps2).
Proof.
  intros ps1 ps2.
  assert (Hperm : Permutation ps1 ps2) by apply perm_swap.
  assert (Hnd : NoDup (map combinedName ps1)) by (simpl; distinct_strings).
  split; [exact Hperm|]. split; [exact Hnd|].
  exact (@Merge_ignores_supplied_order fieldTemplate.engine pruningOpts ps1 ps2
           Hperm Hnd).
Defined.

Lemma ReplaceAll_drops_region_witness :
  hasPair "{" ("a{b-" +++ "{") = false
  /\ hasPair "}" (" index .M `}` " +++ "}") = false
  /\ regexp.ReplaceAllEmpty matchGoTemplateSection
       ("a{b-" +++ "{{" +++ " index .M `}` " +++ "}}" +++ ".{{ .RoleName }}}")
     = "a{b-" +++ regexp.ReplaceAllEmpty matchGoTemplateSection ".{{ .RoleName }}}"
  /\ regexp.ReplaceAllEmpty matchGoTemplateSection "a{b-" = "a{b-".
Proof.
  split; [reflexivity|]. split; [reflexivity|].
  destruct (ReplaceAll_drops_region "a{b-" " index .M `}` " ".{{ .RoleName }}}")
    as [Hregion Htext].
  split; [apply Hregion; reflexivity | apply Htext; reflexivity].
Defined.

Lemma Generate_checks_prefix_witness :
  (forall out,
     @Generate fieldTemplate.engine (generatorWithPrefix "my team-") out ->
     genConfig out = exampleConfig
     /\ genErr out = Some (illegalMessage "profile prefix")
     /\ genCalls out = 0)
  /\ prefixRejected (generatorWithPrefix "team-") = false.
Proof.
  split.
  - apply (proj1 (@Generate_checks_prefix fieldTemplate.engine
                    (generatorWithPrefix "my team-"))).
    exists " "%char. simpl. tauto.
  - apply (proj2 (@Generate_checks_prefix fieldTemplate.engine
                    (generatorWithPrefix "team-"))).
    intros c Hin Hbad. simpl in Hin, Hbad.
    repeat (destruct Hin as [<-|Hin]; [intuition discriminate|]).
    exact Hin.
Defined.

Lemma template_rejection_needs_illegal_character_witness :
  let g := generatorFor [workingSource] "{{ .AccountName }}. " in
  templateRejected g = true
  /\ templateOf g <> DefaultProfileNameTemplate
  /\ exists c, In c (bytes (templateOf g)) /\ illegalOrSpace c = true.
Proof.
  intros g. split; [reflexivity|].
  apply (template_rejection_needs_illegal_character g). reflexivity.
Defined.

Lemma template_check_exact_without_brace_witness :
  let g := generatorFor [workingSource] "{{ .AccountName }}.;" in
  regexp.ReplaceAllEmpty matchGoTemplateSection (templateOf g) = ".;"
  /\ (templateRejected g = true <->
      exists c,
        In c (bytes (regexp.ReplaceAllEmpty matchGoTemplateSection (templateOf g)))
        /\ illegalOrSpace c = true).
Proof.
  intros g. split; [reflexivity|].
  apply (template_check_exact_without_brace g).
  - discriminate.
  - simpl. intuition discriminate.
Defined.

Lemma Generate_merges_all_sources_witness :
  let g := generatorFor [workingSource; otherSource] "" in
  let out := @GenerateIn fieldTemplate.engine [otherSource; workingSource] g in
  @Generate fieldTemplate.engine g out
  /\ exists profiles,
       Permutation profiles (flat_map profilesOf (Generator.Sources g))
       /\ genConfig out
          = outConfig (@Merge fieldTemplate.engine (mergeOptsOf g profiles))
       /\ genErr out
          = outErr (@Merge fieldTemplate.engine (mergeOptsOf g profiles))
       /\ genCalls out = List.length (Generator.Sources g).
Proof.
  intros g out.
  assert (Hrun : @Generate fieldTemplate.engine g out).
  { exists [otherSource; workingSource]. split; [apply perm_swap|reflexivity]. }
  split; [exact Hrun|].
  apply (@Generate_merges_all_sources fieldTemplate.engine g out Hrun).
  - reflexivity.
  - reflexivity.
  - intros s [<-|[<-|[]]]; eexists; reflexivity.
Defined.

Lemma Generate_outcome_independent_of_schedule_witness :
  let g := generatorFor [workingSource; otherSource] "" in
  @GenerateIn fieldTemplate.engine [workingSource; otherSource] g
  = @GenerateIn fieldTemplate.engine [otherSource; workingSource] g.
Proof.
  intros g.
  apply (@Generate_outcome_independent_of_schedule fieldTemplate.engine g).
  - intros s [<-|[<-|[]]]; eexists; reflexivity.
  - simpl. distinct_strings.
  - exists [workingSource; otherSource]. split; [apply Permutation_refl|reflexivity].
  - exists [otherSource; workingSource]. split; [apply perm_swap|reflexivity].
Defined.

Lemma AddSource_then_Generate_witness :
  let g := generatorFor [workingSource] "" in
  (forall out,
     @Generate fieldTemplate.engine (AddSource g failingSource) out ->
     genConfig out = exampleConfig /\ genErr out <> None)
  /\ (forall out,
        @Generate fieldTemplate.engine (AddSource g otherSource) out ->
        exists profiles,
          Permutation profiles
            ([testingDevRole]
             ++ [account "prod" "Admin"; account "staging" "Admin"])
          /\ genConfig out
             = outConfig (@Merge fieldTemplate.engine (mergeOptsOf g profiles))
          /\ genErr out
             = outErr (@Merge fieldTemplate.engine (mergeOptsOf g profiles))
          /\ genCalls out = 2).
Proof.
  intros g. split.
  - intros out Hrun.
    exact (proj1 (proj2 (@AddSource_then_Generate fieldTemplate.engine g
                           failingSource out))
             Hrun "access denied" eq_refl).
  - intros out Hrun.
    apply (proj2 (proj2 (@AddSource_then_Generate fieldTemplate.engine g
                           otherSource out)) Hrun).
    + reflexivity.
    + reflexivity.
    + intros s [<-|[]]. eexists. reflexivity.
    + reflexivity.
Defined.
